(** * log4mongo: the formatter and the two handlers of [log4mongo/handlers.py]

    A shallow embedding of [MongoFormatter], [MongoHandler] and
    [BufferedMongoHandler], followed by the properties of the
    specification that can be settled on it.

    Conventions of the embedding.
    - A Python dictionary with string keys is a [gmap string pyval].
    - A call that can raise returns a [result]: [Ok v] or [Err e].
    - The pymongo collection is an external collaborator: an abstract state
      with the two operations [insert_one] and [insert_many], each of which
      either succeeds or raises (class [Collection]).
    - Every method returns the new handler, the events it produced in order
      (driver calls, diagnostic output, ...) and how it ended: [Returned] or
      [Raised e].
    - The lock is not modelled: the methods are run one at a time.  The
      timer thread is modelled as its loop run on its own, and the
      connection set-up against the answers the driver gives during one
      construction. *)

From stdpp Require Import gmap strings list fin_maps.

Set Warnings "-register-all".
Local Open Scope string_scope.
Local Open Scope Z_scope.
Local Open Scope list_scope.

(** ** Python values *)

(** The values a record attribute or a document field can hold.  [PyObj]
    stands for any object the model does not look into (a datetime, a float,
    an exception instance, a traceback), named by an identifier. *)
Inductive pyval : Type :=
| PyNone
| PyBool (b : bool)
| PyInt (n : Z)
| PyStr (s : string)
| PyTuple (items : list pyval)
| PyDict (entries : gmap string pyval)
| PyObj (id : N).

(** The document handed to the driver: a Python [dict]. *)
Abbreviation Document := (gmap string pyval).

(** [v != s] for a string literal [s]: only the string [s] itself is equal
    to it. *)
Definition py_ne_str (v : pyval) (s : string) : bool :=
  match v with
  | PyStr s' => negb (String.eqb s' s)
  | _ => true
  end.

(** ** Exceptions *)

(** What can be raised: the [KeyError] of a dictionary subscript, the
    [TypeError] and [IndexError] of a subscript on other values, and
    whatever else a call into the runtime or the driver raises, told
    apart by a description ([WriteError] for the driver's writes). *)
Inductive exn : Type :=
| KeyError (key : string)
| WriteError (what : string)
| TypeError (what : string)
| IndexError (what : string)
| OtherError (what : string).

(** The value of a call that may raise. *)
Inductive result (A : Type) : Type :=
| Ok (a : A)
| Err (e : exn).
Arguments Ok {A}.
Arguments Err {A}.

Definition result_bind {A B : Type} (m : result A) (f : A -> result B)
  : result B :=
  match m with
  | Ok a => f a
  | Err e => Err e
  end.

Notation "'let!' x ':=' m 'in' f" := (result_bind m (fun x => f))
  (at level 10, x name, m at level 100, f at level 200).

Definition returned {A : Type} (m : result A) : option A :=
  match m with
  | Ok a => Some a
  | Err _ => None
  end.

(** ** Log records *)

(** A [logging.LogRecord].  The named fields are the attributes that
    [LogRecord.__init__] always creates; [extra] holds every other
    attribute found on the record (those given through [extra=...], or set
    by a filter or by another formatter).  [exc_info] is whatever value
    the record carries: [None], a triple (type, value, traceback), or
    anything else the caller passed, such as [False]. *)
Record LogRecord : Type := {
  name : pyval;
  msg : pyval;
  args : pyval;
  levelname : pyval;
  levelno : Z;
  pathname : pyval;
  filename : pyval;
  module : pyval;
  exc_info : pyval;
  exc_text : pyval;
  stack_info : pyval;
  lineno : pyval;
  funcName : pyval;
  created : pyval;
  msecs : pyval;
  relativeCreated : pyval;
  thread : pyval;
  threadName : pyval;
  processName : pyval;
  process : pyval;
  extra : gmap string pyval
}.

(** The attributes created by [LogRecord.__init__], by name. *)
Definition init_attrs (record : LogRecord) : list (string * pyval) :=
  [ ("name", name record);
    ("msg", msg record);
    ("args", args record);
    ("levelname", levelname record);
    ("levelno", PyInt (levelno record));
    ("pathname", pathname record);
    ("filename", filename record);
    ("module", module record);
    ("exc_info", exc_info record);
    ("exc_text", exc_text record);
    ("stack_info", stack_info record);
    ("lineno", lineno record);
    ("funcName", funcName record);
    ("created", created record);
    ("msecs", msecs record);
    ("relativeCreated", relativeCreated record);
    ("thread", thread record);
    ("threadName", threadName record);
    ("processName", processName record);
    ("process", process record) ].

(** [record.__dict__] of a record from which no attribute was deleted:
    one slot per attribute name.  A name of the constructor's set always
    denotes the constructor's attribute, so an entry of [extra] under
    such a name is not a further attribute.  The part of [format] that
    reads the dictionary ([copy_extras] below) is written for any
    dictionary, also one that lacks a default name. *)
Definition __dict__ (record : LogRecord) : gmap string pyval :=
  list_to_map (init_attrs record) ∪ extra record.

(** The functions of the Python runtime and of [logging] that [format]
    calls, each of which may raise: the builtin [str],
    [Formatter.formatException], [LogRecord.getMessage] (which raises on
    a message that does not fit its arguments), and the subscript of an
    object the model does not look into. *)
Class Logging : Type := {
  str : pyval -> result string;
  formatException : pyval -> result string;
  getMessage : LogRecord -> result string;
  obj_getitem : N -> nat -> result pyval
}.

(** [v[i]] for a literal index [i >= 0]: an element of a tuple, a
    character of a string; a dictionary with string keys has no integer
    key; [None], booleans and integers cannot be subscripted. *)
Definition subscript `{Logging} (v : pyval) (i : nat) : result pyval :=
  match v with
  | PyTuple items =>
      match items !! i with
      | Some x => Ok x
      | None => Err (IndexError "tuple index out of range")
      end
  | PyStr s =>
      match String.get i s with
      | Some c => Ok (PyStr (String c EmptyString))
      | None => Err (IndexError "string index out of range")
      end
  | PyDict _ => Err (KeyError "1")
  | PyNone => Err (TypeError "'NoneType' object is not subscriptable")
  | PyBool _ => Err (TypeError "'bool' object is not subscriptable")
  | PyInt _ => Err (TypeError "'int' object is not subscriptable")
  | PyObj id => obj_getitem id i
  end.

(** ** MongoFormatter *)

Module MongoFormatter.

(** [logging.LogRecord('', '', '', '', '', '', '', '').__dict__.keys()]:
    the attribute names [LogRecord.__init__] creates (CPython 3.2 to 3.11;
    3.12 adds [taskName]). *)
Definition DEFAULT_PROPERTIES : gset string :=
  list_to_set
    [ "name"; "msg"; "args"; "levelname"; "levelno"; "pathname"; "filename";
      "module"; "exc_info"; "exc_text"; "stack_info"; "lineno"; "funcName";
      "created"; "msecs"; "relativeCreated"; "thread"; "threadName";
      "processName"; "process" ].

(** [set(d).difference(set(self.DEFAULT_PROPERTIES))], [d] being
    [record.__dict__]. *)
Definition contextual_extra (d : gmap string pyval) : gset string :=
  dom d ∖ DEFAULT_PROPERTIES.

(** The body of [for key in contextual_extra]: [key] is one of the
    names of [d], so [d[key]] is found. *)
Definition copy_extra (d : gmap string pyval) (key : string)
    (document : Document) : Document :=
  match d !! key with
  | Some v => <[key := v]> document
  | None => document
  end.

(** The last block of [format], on [d = record.__dict__] as it is:
    the test on the lengths, the set difference, the test on its
    emptiness and the loop. *)
Definition copy_extras (d : gmap string pyval) (document : Document)
  : Document :=
  if bool_decide (size DEFAULT_PROPERTIES ≠ size d) then
    let contextual_extra := contextual_extra d in
    if bool_decide (contextual_extra ≠ ∅) then
      set_fold (copy_extra d) document contextual_extra
    else document
  else document.

Section Format.
Context `{Logging}.

(** The entries of the standard document, [now] being the value of
    [dt.datetime.utcnow()] at the call and [message] that of
    [record.getMessage()]. *)
Definition standard_entries (now : pyval) (record : LogRecord)
    (message : string) : list (string * pyval) :=
  [ ("timestamp", now);
    ("level", levelname record);
    ("thread", thread record);
    ("threadName", threadName record);
    ("message", PyStr message);
    ("loggerName", name record);
    ("fileName", pathname record);
    ("module", module record);
    ("method", funcName record);
    ("lineNumber", lineno record) ].

(** The standard document.  [record.getMessage()] is the one entry whose
    evaluation may raise. *)
Definition standard_document (now : pyval) (record : LogRecord)
  : result Document :=
  let! message := getMessage record in
  Ok (list_to_map (standard_entries now record message)).

(** The value stored under ['exception']. *)
Definition exception_document (message stack : string) : Document :=
  list_to_map
    [ ("message", PyStr message);
      ("code", PyInt 0);
      ("stackTrace", PyStr stack) ].

(** [if record.exc_info is not None: document.update({'exception': ...})]:
    the test is on identity with [None], so any other value, [False]
    included, is subscripted. *)
Definition decorate_exception (record : LogRecord) (document : Document)
  : result Document :=
  match exc_info record with
  | PyNone => Ok document
  | ei =>
      let! value := subscript ei 1 in
      let! message := str value in
      let! stack := formatException ei in
      Ok (<["exception" := PyDict (exception_document message stack)]>
            document)
  end.

Definition format (now : pyval) (record : LogRecord) : result Document :=
  let! document := standard_document now record in
  let! document := decorate_exception record document in
  Ok (copy_extras (__dict__ record) document).

End Format.
End MongoFormatter.

(** ** The storage collaborator *)

(** A pymongo collection with state [C].  A write returns the new state
    and [None], or [Some e] when it raises [e].  The [_id] the driver adds
    to a document it is given is not modelled. *)
Class Collection (C : Type) : Type := {
  insert_one : Document -> C -> C * option exn;
  insert_many : list Document -> C -> C * option exn
}.

(** ** Events and outcomes *)

(** What a method does to the world outside the handler, in order. *)
Inductive Event : Type :=
| FlushCalled
    (* flush_to_mongo was entered *)
| InsertMany (docs : list Document) (err : option exn)
    (* collection.insert_many(docs), and the exception it raised if any *)
| InsertOne (doc : Document) (err : option exn)
    (* collection.insert_one(doc), and the exception it raised if any *)
| Print (e1 e2 : exn) (msg : Document)
    (* the print(...) of flush_to_mongo *)
| HandleError (record : LogRecord)
    (* logging.Handler.handleError(record) *)
| TimerStop
    (* self._timer_stopper(), which sets the timer's stop event *)
| Logout
    (* self.db.logout() *)
| Close.
    (* self.connection.close() *)

Inductive outcome : Type :=
| Returned
| Raised (e : exn).

Definition is_flush (ev : Event) : bool :=
  match ev with FlushCalled => true | _ => false end.

(** A write the driver refused. *)
Definition is_failed_insert_one (ev : Event) : bool :=
  match ev with InsertOne _ (Some _) => true | _ => false end.

Definition is_print (ev : Event) : bool :=
  match ev with Print _ _ _ => true | _ => false end.

(** A document reached the driver's write call. *)
Definition is_write (ev : Event) : bool :=
  match ev with InsertMany _ _ | InsertOne _ _ => true | _ => false end.

(** Number of [flush_to_mongo] invocations in a run. *)
Definition flush_count (t : list Event) : nat :=
  length (List.filter is_flush t).

(** ** MongoHandler *)

Module MongoHandler.

(** The fields the write path and [close] read.  [collection] is [None]
    when construction failed silently; [connection] is the [MongoClient],
    of which only its presence matters here. *)
Record t (C : Type) : Type := mk {
  fail_silently : bool;
  connection : option unit;
  collection : option C;
  authenticated : bool
}.
Arguments mk {C}.
Arguments fail_silently {C}.
Arguments connection {C}.
Arguments collection {C}.
Arguments authenticated {C}.

Definition set_collection {C} (h : t C) (c : C) : t C :=
  mk (fail_silently h) (connection h) (Some c) (authenticated h).

Section Methods.
Context `{Logging} {C : Type} `{Collection C}.

Definition close (h : t C) : list Event :=
  (if authenticated h then [Logout] else []) ++
  (match connection h with Some _ => [Close] | None => [] end).

(** The [try] covers [self.format(record)] as well as the write: when
    either raises, [handleError] is called unless [fail_silently]. *)
Definition emit (now : pyval) (record : LogRecord) (h : t C)
  : t C * list Event * outcome :=
  match collection h with
  | Some coll =>
      match MongoFormatter.format now record with
      | Ok doc =>
          match insert_one doc coll with
          | (coll, None) =>
              (set_collection h coll, [InsertOne doc None], Returned)
          | (coll, Some e) =>
              if negb (fail_silently h) then
                (set_collection h coll,
                 [InsertOne doc (Some e); HandleError record], Returned)
              else (set_collection h coll, [InsertOne doc (Some e)], Returned)
          end
      | Err e =>
          if negb (fail_silently h) then (h, [HandleError record], Returned)
          else (h, [], Returned)
      end
  | None => (h, [], Returned)
  end.

End Methods.
End MongoHandler.

(** ** BufferedMongoHandler *)

Module BufferedMongoHandler.

(** [super] holds the inherited fields.  [_timer_stopper] tells whether a
    timer was started at construction, [timer_stopped] is the state of its
    stop event. *)
Record t (C : Type) : Type := mk {
  super : MongoHandler.t C;
  buffer : list Document;
  buffer_size : Z;
  buffer_early_flush_level : Z;
  last_record : option LogRecord;
  _timer_stopper : bool;
  timer_stopped : bool
}.
Arguments mk {C}.
Arguments super {C}.
Arguments buffer {C}.
Arguments buffer_size {C}.
Arguments buffer_early_flush_level {C}.
Arguments last_record {C}.
Arguments _timer_stopper {C}.
Arguments timer_stopped {C}.

Definition collection {C} (h : t C) : option C :=
  MongoHandler.collection (super h).

Definition set_collection {C} (h : t C) (c : C) : t C :=
  mk (MongoHandler.set_collection (super h) c) (buffer h) (buffer_size h)
     (buffer_early_flush_level h) (last_record h) (_timer_stopper h)
     (timer_stopped h).

Definition set_buffer {C} (h : t C) (b : list Document) : t C :=
  mk (super h) b (buffer_size h) (buffer_early_flush_level h) (last_record h)
     (_timer_stopper h) (timer_stopped h).

Definition set_last_record {C} (h : t C) (r : LogRecord) : t C :=
  mk (super h) (buffer h) (buffer_size h) (buffer_early_flush_level h) (Some r)
     (_timer_stopper h) (timer_stopped h).

Definition set_timer_stopped {C} (h : t C) : t C :=
  mk (super h) (buffer h) (buffer_size h) (buffer_early_flush_level h)
     (last_record h) (_timer_stopper h) true.

Section Methods.
Context `{Logging} {C : Type} `{Collection C}.

Definition empty_buffer (h : t C) : t C := set_buffer h [].

(** The loop [for msg in self.buffer] of the [except Exception as e1]
    branch.  [msg['levelname']] is a dictionary subscript: it raises
    [KeyError] when the document has no such key, and that exception
    leaves the loop. *)
Fixpoint insert_one_by_one (e1 : exn) (msgs : list Document) (coll : C)
  : C * list Event * outcome :=
  match msgs with
  | [] => (coll, [], Returned)
  | msg :: rest =>
      match insert_one msg coll with
      | (coll, None) =>
          let '(coll, evs, o) := insert_one_by_one e1 rest coll in
          (coll, InsertOne msg None :: evs, o)
      | (coll, Some e2) =>
          match msg !! "levelname" with
          | None =>
              (coll, [InsertOne msg (Some e2)], Raised (KeyError "levelname"))
          | Some lv =>
              let report :=
                if py_ne_str lv "DEBUG" then [Print e1 e2 msg] else [] in
              let '(coll, evs, o) := insert_one_by_one e1 rest coll in
              (coll, InsertOne msg (Some e2) :: report ++ evs, o)
          end
      end
  end.

Definition flush_to_mongo (h : t C) : t C * list Event * outcome :=
  match collection h with
  | Some coll =>
      if bool_decide (0 < length (buffer h))%nat then
        match insert_many (buffer h) coll with
        | (coll, None) =>
            (empty_buffer (set_collection h coll),
             [FlushCalled; InsertMany (buffer h) None], Returned)
        | (coll, Some e1) =>
            match insert_one_by_one e1 (buffer h) coll with
            | (coll, evs, Returned) =>
                (empty_buffer (set_collection h coll),
                 FlushCalled :: InsertMany (buffer h) (Some e1) :: evs,
                 Returned)
            | (coll, evs, Raised e) =>
                (set_collection h coll,
                 FlushCalled :: InsertMany (buffer h) (Some e1) :: evs,
                 Raised e)
            end
        end
      else (h, [FlushCalled], Returned)
  | None => (h, [FlushCalled], Returned)
  end.

(** [self.format(record)] is called inside the [with] block and outside
    any [try]: an exception it raises leaves [emit] with [last_record]
    assigned and nothing appended. *)
Definition emit (now : pyval) (record : LogRecord) (h : t C)
  : t C * list Event * outcome :=
  let h := set_last_record h record in
  match MongoFormatter.format now record with
  | Ok doc =>
      let h := set_buffer h (buffer h ++ [doc]) in
      if bool_decide (buffer_size h ≤ Z.of_nat (length (buffer h)))
         || bool_decide (buffer_early_flush_level h ≤ levelno record)
      then flush_to_mongo h
      else (h, [], Returned)
  | Err e => (h, [], Raised e)
  end.

Definition destroy (h : t C) : t C * list Event * outcome :=
  let '(h, evs0) :=
    if _timer_stopper h then (set_timer_stopped h, [TimerStop])
    else (h, []) in
  match flush_to_mongo h with
  | (h, evs1, Returned) =>
      (h, evs0 ++ evs1 ++ MongoHandler.close (super h), Returned)
  | (h, evs1, Raised e) => (h, evs0 ++ evs1, Raised e)
  end.

(** Successive [emit] calls, one per (timestamp, record) pair; an
    exception that leaves an [emit] ends the run. *)
Fixpoint emit_all (recs : list (pyval * LogRecord)) (h : t C)
  : t C * list Event * outcome :=
  match recs with
  | [] => (h, [], Returned)
  | (now, record) :: rest =>
      match emit now record h with
      | (h, evs, Returned) =>
          let '(h, evs', o) := emit_all rest h in (h, evs ++ evs', o)
      | (h, evs, Raised e) => (h, evs, Raised e)
      end
  end.

End Methods.
End BufferedMongoHandler.

(** ** Vocabulary of the properties *)

(** The keys of the standard document. *)
Definition standard_keys : gset string :=
  list_to_set
    [ "timestamp"; "level"; "thread"; "threadName"; "message"; "loggerName";
      "fileName"; "module"; "method"; "lineNumber" ].

(** [v is None] *)
Definition is_none (v : pyval) : bool :=
  match v with PyNone => true | _ => false end.

(** The event of a single write that went through. *)
Definition written_ok (doc : Document) : Event := InsertOne doc None.

(** Every buffered document was produced by [format]: the buffer starts
    empty and [emit] is the only method that adds to it. *)
Definition buffer_formatted `{Logging} {C : Type}
    (h : BufferedMongoHandler.t C) : Prop :=
  Forall (λ d : Document,
            ∃ now record, MongoFormatter.format now record = Ok d)
         (BufferedMongoHandler.buffer h).

(** [format] returns a document for each of the records. *)
Definition formattable `{Logging} (recs : list (pyval * LogRecord)) : Prop :=
  Forall (λ nr, ∃ d, MongoFormatter.format nr.1 nr.2 = Ok d) recs.

(** The documents of successive [emit] calls: those of the records for
    which [format] returns one. *)
Definition formatted `{Logging} (recs : list (pyval * LogRecord))
  : list Document :=
  omap (λ nr, returned (MongoFormatter.format nr.1 nr.2)) recs.

(** ** Concrete collaborators *)

(** A runtime to run the model with: [str] of a string is the string,
    of [None] is ["None"]; [formatException] takes triples only;
    [getMessage] returns a string message as it is. *)
Definition plain_logging : Logging := {|
  str v :=
    Ok (match v with PyStr s => s | PyNone => "None" | _ => "<object>" end);
  formatException ei :=
    match ei with
    | PyTuple [_; _; _] => Ok "Traceback (most recent call last): ..."
    | _ => Err (TypeError "exc_info is not a triple")
    end;
  getMessage record :=
    match msg record with
    | PyStr s => Ok s
    | _ => Err (TypeError "not all arguments converted")
    end;
  obj_getitem _ _ := Err (TypeError "object is not subscriptable")
|}.

(** A collection as a test double: it keeps what was written, refuses
    every bulk write when [bulk_fails] is set, and refuses the single
    documents that [rejects] selects. *)
Record FakeCollection : Type := {
  stored : list Document;
  bulk_fails : bool;
  rejects : Document -> bool
}.

Definition fake_store (c : FakeCollection) (docs : list Document)
  : FakeCollection :=
  {| stored := stored c ++ docs;
     bulk_fails := bulk_fails c;
     rejects := rejects c |}.

Definition fake_collection : Collection FakeCollection := {|
  insert_one doc c :=
    if rejects c doc then (c, Some (WriteError "insert_one refused"))
    else (fake_store c [doc], None);
  insert_many docs c :=
    if bulk_fails c then (c, Some (WriteError "insert_many refused"))
    else (fake_store c docs, None)
|}.

(** A record as [Logger.makeRecord] builds it, with the given level,
    message, exception information and further attributes. *)
Definition make_record (lvl : string) (no : Z) (text : string)
    (ei : pyval) (more : gmap string pyval)
  : LogRecord :=
  {| name := PyStr "testLogger";
     msg := PyStr text;
     args := PyTuple [];
     levelname := PyStr lvl;
     levelno := no;
     pathname := PyStr "/srv/app/main.py";
     filename := PyStr "main.py";
     module := PyStr "main";
     exc_info := ei;
     exc_text := PyNone;
     stack_info := PyNone;
     lineno := PyInt 38;
     funcName := PyStr "run";
     created := PyObj 1;
     msecs := PyObj 2;
     relativeCreated := PyObj 3;
     thread := PyInt 140;
     threadName := PyStr "MainThread";
     processName := PyStr "MainProcess";
     process := PyInt 4242;
     extra := more |}.

(** Some instant. *)
Definition noon : pyval := PyObj 12.

(** ** Concrete handlers *)

(** A buffered handler on the test double, with a timer.  [coll] is
    [None] for a handler whose construction failed silently: [_connect]
    has then stored the client and returned before binding the
    collection, which only happens with [fail_silently] set. *)
Definition make_handler (coll : option FakeCollection) (buf : list Document)
    (size early : Z) : BufferedMongoHandler.t FakeCollection :=
  BufferedMongoHandler.mk
    (MongoHandler.mk (match coll with Some _ => false | None => true end)
                    (Some ()) coll false)
    buf size early None true false.

(** A collection that refuses every write. *)
Definition down : FakeCollection :=
  {| stored := []; bulk_fails := true; rejects := λ _, true |}.

(** A collection that takes every write. *)
Definition up : FakeCollection :=
  {| stored := []; bulk_fails := false; rejects := λ _, false |}.

Definition is_refused (doc : Document) : bool :=
  match doc !! "message" with
  | Some (PyStr s) => String.eqb s "refused"
  | _ => false
  end.

(** A collection that refuses bulk writes and the documents whose
    message is ["refused"]. *)
Definition flaky : FakeCollection :=
  {| stored := []; bulk_fails := true; rejects := is_refused |}.

Definition info_record (text : string) : LogRecord :=
  make_record "INFO" 20 text PyNone ∅.

Definition critical_record (text : string) : LogRecord :=
  make_record "CRITICAL" 50 text PyNone ∅.

(** The document of [info_record text]. *)
Definition info_doc (text : string) : Document :=
  default ∅ (returned (@MongoFormatter.format plain_logging noon
                         (info_record text))).

(** The handlers and records the concrete runs below start from. *)

Definition traceback : pyval :=
  PyTuple [PyObj 7; PyStr "exc1"; PyObj 9].

(** A record whose [extra] names a key of the standard document. *)
Definition level_extra_record : LogRecord :=
  make_record "INFO" 20 "hello" PyNone {["level" := PyStr "custom"]}.

(** A record with exception information and an [extra] named
    [exception]. *)
Definition exception_extra_record : LogRecord :=
  make_record "ERROR" 40 "failed" traceback
              {["exception" := PyStr "boom"]}.

Definition user_extra_record : LogRecord :=
  make_record "INFO" 20 "hello" PyNone {["user" := PyStr "alice"]}.

Definition error_record : LogRecord :=
  make_record "ERROR" 40 "failed" traceback ∅.

(** One buffered document, storage down. *)
Definition down_handler : BufferedMongoHandler.t FakeCollection :=
  make_handler (Some down) [info_doc "hello"] 100 50.

(** Empty buffer, storage down. *)
Definition idle_down_handler : BufferedMongoHandler.t FakeCollection :=
  make_handler (Some down) [] 100 50.

(** Two buffered documents, the second of which the storage refuses. *)
Definition shutdown_handler : BufferedMongoHandler.t FakeCollection :=
  make_handler (Some flaky) [info_doc "kept"; info_doc "refused"] 100 50.

(** Capacity 1, never connected. *)
Definition unbound_handler : BufferedMongoHandler.t FakeCollection :=
  make_handler None [] 1 50.

(** Capacity 2, storage up. *)
Definition small_handler : BufferedMongoHandler.t FakeCollection :=
  make_handler (Some up) [] 2 50.

Definition bulk_refused : exn := WriteError "insert_many refused".
Definition single_refused : exn := WriteError "insert_one refused".

(** ** Construction of a handler *)

(** [MongoHandler.__init__] and [_connect].  The driver is met through
    what it answers during one construction: each of its operations is
    called at most once there.  [MongoClient(...)] itself is taken not to
    raise; the module-level [_connection] is passed in and handed back. *)
Module Construction.

(** A [MongoClient] object, by identity. *)
Abbreviation Client := N.

(** What the driver raises during construction: the two exceptions
    [_connect] names, and [DriverError] for any other. *)
Inductive driver_exn : Type :=
| ServerSelectionTimeoutError
| OperationFailure
| DriverError (what : string).

(** How a construction ends. *)
Inductive construction : Type :=
| Built
| Aborted (e : driver_exn).

(** The constructor arguments [__init__] stores on the handler. *)
Record Settings : Type := {
  host : string;
  port : Z;
  database_name : string;
  collection_name : string;
  username : option string;
  password : option string;
  authentication_database_name : string;
  fail_silently : bool;
  capped : bool;
  capped_max : Z;
  capped_size : Z;
  reuse : bool
}.

(** The collection object bound to [self.collection]. *)
Inductive CollectionRef : Type :=
| CappedCollection (client : Client) (database coll : string) (max size : Z)
    (* Collection(self.db, name, capped=True, max=..., size=...) *)
| NamedCollection (client : Client) (database coll : string).
    (* self.db[self.collection_name] *)

(** The driver operations of a construction, in order. *)
Inductive DriverCall : Type :=
| NewClient (h : string) (p : Z) (client : Client)
    (* MongoClient(host=h, port=p), returning client *)
| IsPrimary (client : Client)
    (* client.is_primary *)
| Authenticate (client : Client) (database user pass : string)
    (* client[database].authenticate(user, pass) *)
| CreateCapped (client : Client) (database coll : string) (max size : Z).
    (* Collection(client[database], coll, capped=True, max=..., size=...) *)

(** The driver's answers: the client a [MongoClient(...)] call returns,
    what [is_primary] and the capped creation raise if anything, and what
    [authenticate] returns or raises. *)
Record Driver : Type := {
  fresh_client : Client;
  is_primary : option driver_exn;
  authenticate : bool + driver_exn;
  create_capped : option driver_exn
}.

(** The attributes [_connect] assigns. *)
Record Fields : Type := mk {
  connection : option Client;
  db : option (Client * string);
  collection : option CollectionRef;
  authenticated : bool
}.

Definition set_connection (self : Fields) (c : Client) : Fields :=
  mk (Some c) (db self) (collection self) (authenticated self).

Definition set_db (self : Fields) (d : Client * string) : Fields :=
  mk (connection self) (Some d) (collection self) (authenticated self).

Definition set_collection (self : Fields) (r : CollectionRef) : Fields :=
  mk (connection self) (db self) (Some r) (authenticated self).

Definition set_authenticated (self : Fields) (b : bool) : Fields :=
  mk (connection self) (db self) (collection self) b.

(** The last part of [_connect]: [if self.capped: ... else: ...]. *)
Definition bind_collection (s : Settings) (drv : Driver) (c : Client)
    (self : Fields) : Fields * list DriverCall * construction :=
  if capped s then
    let call :=
      CreateCapped c (database_name s) (collection_name s)
                   (capped_max s) (capped_size s) in
    match create_capped drv with
    | None =>
        (set_collection self
           (CappedCollection c (database_name s) (collection_name s)
                             (capped_max s) (capped_size s)),
         [call], Built)
    | Some OperationFailure =>
        (set_collection self
           (NamedCollection c (database_name s) (collection_name s)),
         [call], Built)
    | Some e => (self, [call], Aborted e)
    end
  else
    (set_collection self
       (NamedCollection c (database_name s) (collection_name s)),
     [], Built).

(** [_connect] from [self.db = ...] on, the connection [c] being set. *)
Definition select_database (s : Settings) (drv : Driver) (c : Client)
    (self : Fields) : Fields * list DriverCall * construction :=
  let self := set_db self (c, database_name s) in
  match username s, password s with
  | Some u, Some p =>
      let call := Authenticate c (authentication_database_name s) u p in
      match authenticate drv with
      | inl ok =>
          let '(self, evs, o) :=
            bind_collection s drv c (set_authenticated self ok) in
          (self, call :: evs, o)
      | inr e => (self, [call], Aborted e)
      end
  | _, _ => bind_collection s drv c self
  end.

Definition _connect (s : Settings) (drv : Driver)
    (_connection : option Client) (self : Fields)
  : Fields * option Client * list DriverCall * construction :=
  match (if reuse s then _connection else None) with
  | Some c =>
      let '(self, evs, o) := select_database s drv c (set_connection self c) in
      (self, _connection, evs, o)
  | None =>
      let c := fresh_client drv in
      let self := set_connection self c in
      let calls := [NewClient (host s) (port s) c; IsPrimary c] in
      match is_primary drv with
      | Some ServerSelectionTimeoutError =>
          if fail_silently s then (self, _connection, calls, Built)
          else (self, _connection, calls, Aborted ServerSelectionTimeoutError)
      | Some e => (self, _connection, calls, Aborted e)
      | None =>
          let '(self, evs, o) := select_database s drv c self in
          (self, Some c, calls ++ evs, o)
      end
  end.

(** [MongoHandler.__init__]: the attributes start at [None] and [False],
    then [_connect] runs. *)
Definition __init__ (s : Settings) (drv : Driver) (_connection : option Client)
  : Fields * option Client * list DriverCall * construction :=
  _connect s drv _connection (mk None None None false).

(** The handler a construction that ended normally leaves, as the write
    path and [close] see it. *)
Definition handler (s : Settings) (self : Fields)
  : MongoHandler.t CollectionRef :=
  MongoHandler.mk (fail_silently s)
                  (match connection self with Some _ => Some () | None => None end)
                  (collection self) (authenticated self).

Definition is_new_client (call : DriverCall) : bool :=
  match call with NewClient _ _ _ => true | _ => false end.

End Construction.

(** ** Runs of the unbuffered handler *)

Section UnbufferedRuns.
Context `{Logging} {C : Type} `{Collection C}.

(** Successive [MongoHandler.emit] calls, one per (timestamp, record)
    pair. *)
Fixpoint handler_emit_all (recs : list (pyval * LogRecord))
    (h : MongoHandler.t C) : MongoHandler.t C * list Event * outcome :=
  match recs with
  | [] => (h, [], Returned)
  | (now, record) :: rest =>
      match MongoHandler.emit now record h with
      | (h, evs, Returned) =>
          let '(h, evs', o) := handler_emit_all rest h in (h, evs ++ evs', o)
      | (h, evs, Raised e) => (h, evs, Raised e)
      end
  end.

End UnbufferedRuns.

(** ** The timer thread *)

(** Where the thread started by [call_repeatedly] stands. *)
Inductive timer_thread : Type :=
| Waiting
    (* inside stopped.wait(interval) *)
| Exited
    (* wait returned True: the loop is over *)
| Died (e : exn).
    (* an exception left func(): the thread is over *)

Section TimerThread.
Context `{Logging} {C : Type} `{Collection C}.

(** [while not stopped.wait(interval): func()] with [func] the
    handler's [flush_to_mongo], run on its own for the given number of
    elapsed intervals. *)
Fixpoint loop (intervals : nat) (h : BufferedMongoHandler.t C)
  : BufferedMongoHandler.t C * list Event * timer_thread :=
  if BufferedMongoHandler.timer_stopped h then (h, [], Exited)
  else
    match intervals with
    | O => (h, [], Waiting)
    | S n =>
        match BufferedMongoHandler.flush_to_mongo h with
        | (h, evs, Returned) =>
            let '(h, evs', st) := loop n h in (h, evs ++ evs', st)
        | (h, evs, Raised e) => (h, evs, Died e)
        end
    end.

End TimerThread.

(** ** Reading a run *)

(** The single writes of a run, each with the exception it raised. *)
Definition attempts (evs : list Event) : list (Document * option exn) :=
  omap (λ ev, match ev with InsertOne doc err => Some (doc, err) | _ => None end)
       evs.

(** The documents handed to a single write. *)
Definition attempted (evs : list Event) : list Document :=
  (attempts evs).*1.

(** Whether a failed write of [doc] is to be reported: the document has a
    ['levelname'] other than ['DEBUG']. *)
Definition reportable (doc : Document) : bool :=
  match doc !! "levelname" with
  | Some lv => py_ne_str lv "DEBUG"
  | None => false
  end.

(** The reports due for the failed single writes of a run after a bulk
    write that raised [e1]. *)
Definition reports_due (e1 : exn) (tries : list (Document * option exn))
  : list Event :=
  flat_map (λ t, match t.2 with
                 | Some e2 => if reportable t.1 then [Print e1 e2 t.1] else []
                 | None => []
                 end) tries.

Definition is_close_event (ev : Event) : bool :=
  match ev with Logout | Close => true | _ => false end.

(** Further concrete inputs. *)

Definition local_settings (silent cap use : bool)
    (user pass : option string) : Construction.Settings :=
  {| Construction.host := "localhost";
     Construction.port := 27017;
     Construction.database_name := "logs";
     Construction.collection_name := "logs";
     Construction.username := user;
     Construction.password := pass;
     Construction.authentication_database_name := "admin";
     Construction.fail_silently := silent;
     Construction.capped := cap;
     Construction.capped_max := 1000;
     Construction.capped_size := 1000000;
     Construction.reuse := use |}.

(** A server that cannot be reached. *)
Definition unreachable : Construction.Driver :=
  {| Construction.fresh_client := 1%N;
     Construction.is_primary := Some Construction.ServerSelectionTimeoutError;
     Construction.authenticate := inl true;
     Construction.create_capped := None |}.

(** A server that answers, on which the capped collection exists. *)
Definition reachable (client : N) : Construction.Driver :=
  {| Construction.fresh_client := client;
     Construction.is_primary := None;
     Construction.authenticate := inl true;
     Construction.create_capped := Some Construction.OperationFailure |}.

(** A document as a formatter that keeps ['levelname'] would make it. *)
Definition leveled_doc (lvl text : string) : Document :=
  <["levelname" := PyStr lvl]> (info_doc text).

Definition refuse_all : Document -> bool := λ _, true.

Definition is_handle_error (ev : Event) : bool :=
  match ev with HandleError _ => true | _ => false end.

(** What no method of the buffered handler assigns after construction:
    the capacity, the early-flush level, the presence of a timer, the
    inherited policy and connection fields, and whether a collection is
    bound. *)
Definition same_configuration {C : Type}
    (h h' : BufferedMongoHandler.t C) : Prop :=
  BufferedMongoHandler.buffer_size h' = BufferedMongoHandler.buffer_size h
  ∧ BufferedMongoHandler.buffer_early_flush_level h'
    = BufferedMongoHandler.buffer_early_flush_level h
  ∧ BufferedMongoHandler._timer_stopper h'
    = BufferedMongoHandler._timer_stopper h
  ∧ MongoHandler.fail_silently (BufferedMongoHandler.super h')
    = MongoHandler.fail_silently (BufferedMongoHandler.super h)
  ∧ MongoHandler.connection (BufferedMongoHandler.super h')
    = MongoHandler.connection (BufferedMongoHandler.super h)
  ∧ MongoHandler.authenticated (BufferedMongoHandler.super h')
    = MongoHandler.authenticated (BufferedMongoHandler.super h)
  ∧ (is_Some (BufferedMongoHandler.collection h')
     ↔ is_Some (BufferedMongoHandler.collection h)).

(** One buffered document, storage up. *)
Definition ready_handler : BufferedMongoHandler.t FakeCollection :=
  make_handler (Some up) [info_doc "hello"] 100 50.

(** Two documents with a ['levelname'], storage down. *)
Definition leveled_handler : BufferedMongoHandler.t FakeCollection :=
  make_handler (Some down) [leveled_doc "INFO" "a"; leveled_doc "DEBUG" "b"]
               100 50.

(** Another instant. *)
Definition one_o_clock : pyval := PyObj 13.

(** The document [format] returns for [record] at [noon], the empty one
    standing in when it raises. *)
Definition noon_doc (record : LogRecord) : Document :=
  default ∅ (returned (@MongoFormatter.format plain_logging noon record)).

Definition noon_standard (record : LogRecord) : Document :=
  default ∅ (returned (@MongoFormatter.standard_document plain_logging noon
                         record)).

(** Records logged with [exc_info=False]: no exception goes with them,
    and [exc_info] is not [None]. *)
Definition false_exc_record : LogRecord :=
  make_record "INFO" 20 "hello" (PyBool false) ∅.


Definition bool_not_subscriptable : exn :=
  TypeError "'bool' object is not subscriptable".

(** Storage up, empty buffer, default capacity and early-flush level. *)
Definition idle_handler : BufferedMongoHandler.t FakeCollection :=
  make_handler (Some up) [] 100 50.

(** [format] raises on the record. *)
Definition raises_in_format `{Logging} (nr : pyval * LogRecord) : bool :=
  match MongoFormatter.format nr.1 nr.2 with
  | Ok _ => false
  | Err _ => true
  end.

(** A dictionary of twenty names that lacks the default [stack_info]
    and has the further name [user]: what [record.__dict__] is after
    [del record.stack_info] on a record logged with
    [extra={'user': 'alice'}]. *)
Definition pruned_dict : gmap string pyval :=
  <["user" := PyStr "alice"]>
    (delete "stack_info" (list_to_map (init_attrs (info_record "hello")))).

(** * Properties *)

(** ** The formatter *)

Lemma Ok_inj {A : Type} (a b : A) : Ok a = Ok b → a = b.
Proof. by intros [=]. Qed.

Section FormatFacts.
Context `{Logging}.
Import MongoFormatter.

Lemma dom_init_attrs (record : LogRecord) :
  dom (list_to_map (init_attrs record) : gmap string pyval)
  = DEFAULT_PROPERTIES.
Proof. rewrite dom_list_to_map_L. reflexivity. Qed.

Lemma dom_dict (record : LogRecord) :
  dom (__dict__ record) = DEFAULT_PROPERTIES ∪ dom (extra record).
Proof. unfold __dict__. by rewrite dom_union_L, dom_init_attrs. Qed.

Lemma dict_has_defaults (record : LogRecord) :
  DEFAULT_PROPERTIES ⊆ dom (__dict__ record).
Proof. rewrite dom_dict. apply union_subseteq_l. Qed.

Lemma standard_document_Ok now record std :
  standard_document now record = Ok std →
  ∃ message, getMessage record = Ok message
             ∧ std = list_to_map (standard_entries now record message).
Proof.
  unfold standard_document, result_bind.
  destruct (getMessage record) as [message | e]; [| done].
  intros [= <-]. by exists message.
Qed.

Lemma dom_standard_document now record std :
  standard_document now record = Ok std → dom std = standard_keys.
Proof.
  intros (message & _ & ->)%standard_document_Ok.
  rewrite dom_list_to_map_L. reflexivity.
Qed.

Lemma contextual_extra_spec record k :
  k ∈ contextual_extra (__dict__ record)
  ↔ k ∈ dom (extra record) ∧ k ∉ DEFAULT_PROPERTIES.
Proof.
  unfold contextual_extra.
  rewrite dom_dict, elem_of_difference, elem_of_union. tauto.
Qed.

(** On a dictionary that has every default name, the length test of
    [format] passes exactly when some name is not a default one. *)
Lemma size_test_spec (d : gmap string pyval) :
  DEFAULT_PROPERTIES ⊆ dom d →
  size DEFAULT_PROPERTIES = size d ↔ contextual_extra d = ∅.
Proof.
  intros Hsub. rewrite <- size_dom. unfold contextual_extra. split.
  - intros Hsz.
    assert (DEFAULT_PROPERTIES = dom d) as He.
    { apply set_subseteq_size_eq; [done |].
      rewrite <- Hsz. apply Nat.le_refl. }
    rewrite <- He. apply difference_diag_L.
  - intros He. f_equal. apply set_eq. intros k.
    split; [apply Hsub |].
    intros Hk. destruct (decide (k ∈ DEFAULT_PROPERTIES)) as [|Hn]; [done |].
    exfalso. eapply (not_elem_of_empty (C := gset string) k).
    rewrite <- He. by apply elem_of_difference.
Qed.

Lemma copy_extra_fold_lookup (d : gmap string pyval) (document : Document)
    (X : gset string) k :
  X ⊆ dom d →
  set_fold (copy_extra d) document X !! k
  = if decide (k ∈ X) then d !! k else document !! k.
Proof.
  unfold copy_extra. intros Hsub.
  refine (set_fold_ind_L
    (λ (acc : Document) (Y : gset string),
       Y ⊆ dom d →
       ∀ k, acc !! k = if decide (k ∈ Y) then d !! k else document !! k)
    _ document _ _ X Hsub k); clear.
  - intros _ k. rewrite decide_False; [done | apply not_elem_of_empty].
  - intros x Y acc Hx IH Hsub k.
    assert (is_Some (d !! x)) as [v Hv].
    { apply elem_of_dom, Hsub, elem_of_union_l, elem_of_singleton_2; done. }
    rewrite Hv.
    assert (Y ⊆ dom d) as HY.
    { intros y Hy. apply Hsub, elem_of_union_r, Hy. }
    specialize (IH HY).
    destruct (decide (x = k)) as [->|Hne].
    + rewrite lookup_insert_eq, decide_True; [done |].
      apply elem_of_union_l, elem_of_singleton_2; done.
    + rewrite lookup_insert_ne by done. rewrite IH.
      destruct (decide (k ∈ Y)) as [Hk|Hk].
      * rewrite decide_True; [done | by apply elem_of_union_r].
      * rewrite decide_False; [done |].
        intros [Hin%elem_of_singleton_1 | Hin]%elem_of_union; congruence.
Qed.

(** The extras block, key by key, on a dictionary that has every
    default name. *)
Lemma copy_extras_lookup (d : gmap string pyval) (document : Document) k :
  DEFAULT_PROPERTIES ⊆ dom d →
  copy_extras d document !! k
  = if decide (k ∈ contextual_extra d) then d !! k else document !! k.
Proof.
  intros Hsub. unfold copy_extras. case_bool_decide as Hsz.
  - case_bool_decide as Hne.
    + apply copy_extra_fold_lookup. unfold contextual_extra.
      by apply subseteq_difference_l.
    + rewrite Hne. rewrite decide_False; [done | apply not_elem_of_empty].
  - apply size_test_spec in Hsz; [| done]. rewrite Hsz.
    rewrite decide_False; [done | apply not_elem_of_empty].
Qed.

Lemma decorate_exception_unfold record (document : Document) :
  decorate_exception record document
  = if is_none (exc_info record) then Ok document
    else
      let! value := subscript (exc_info record) 1 in
      let! message := str value in
      let! stack := formatException (exc_info record) in
      Ok (<["exception" := PyDict (exception_document message stack)]>
            document).
Proof. unfold decorate_exception. by destruct (exc_info record). Qed.

Lemma decorate_exception_Ok record (document dec : Document) :
  decorate_exception record document = Ok dec →
  (exc_info record = PyNone ∧ dec = document)
  ∨ (exc_info record ≠ PyNone
     ∧ ∃ value message stack,
         subscript (exc_info record) 1 = Ok value
         ∧ str value = Ok message
         ∧ formatException (exc_info record) = Ok stack
         ∧ dec = <["exception" := PyDict (exception_document message stack)]>
                   document).
Proof.
  rewrite decorate_exception_unfold.
  destruct (is_none (exc_info record)) eqn:Hnone.
  - intros [= <-]. left. by destruct (exc_info record).
  - unfold result_bind.
    destruct (subscript (exc_info record) 1) as [value | e] eqn:Hv;
      [| done].
    destruct (str value) as [message | e] eqn:Hm; [| done].
    destruct (formatException (exc_info record)) as [stack | e] eqn:Hst;
      [| done].
    intros [= <-]. right. split; [by intros Heq; rewrite Heq in Hnone |].
    exists value, message, stack. by repeat split.
Qed.

Lemma decorate_exception_lookup record (document dec : Document) k :
  decorate_exception record document = Ok dec →
  k ≠ "exception" → dec !! k = document !! k.
Proof.
  intros [[_ ->] | (_ & v & m & st & _ & _ & _ & ->)]%decorate_exception_Ok Hk;
    [done | by rewrite lookup_insert_ne].
Qed.

Lemma format_Ok now record doc :
  format now record = Ok doc →
  ∃ std dec,
    standard_document now record = Ok std
    ∧ decorate_exception record std = Ok dec
    ∧ doc = copy_extras (__dict__ record) dec.
Proof.
  unfold format, result_bind.
  destruct (standard_document now record) as [std | e] eqn:Hstd; [| done].
  destruct (decorate_exception record std) as [dec | e] eqn:Hdec; [| done].
  intros <-%Ok_inj. exists std, dec.
  split; [reflexivity |]. split; [exact Hdec | reflexivity].
Qed.

(** [format], key by key: the attributes outside the default set win, every
    other key comes from the standard document and its exception
    decoration. *)
Lemma format_lookup now record doc :
  format now record = Ok doc →
  ∃ std dec,
    standard_document now record = Ok std
    ∧ decorate_exception record std = Ok dec
    ∧ ∀ k, doc !! k
           = if decide (k ∈ contextual_extra (__dict__ record))
             then __dict__ record !! k
             else dec !! k.
Proof.
  intros (std & dec & Hstd & Hdec & ->)%format_Ok.
  exists std, dec. split; [done |]. split; [done |].
  intros k. apply copy_extras_lookup, dict_has_defaults.
Qed.

Lemma dict_lookup_extra record k :
  k ∉ DEFAULT_PROPERTIES → __dict__ record !! k = extra record !! k.
Proof.
  intros Hk. unfold __dict__. apply lookup_union_r.
  apply not_elem_of_dom. by rewrite dom_init_attrs.
Qed.

Lemma standard_document_lookup_is_Some now record std k :
  standard_document now record = Ok std →
  is_Some (std !! k) ↔ k ∈ standard_keys.
Proof. intros Hstd. by rewrite <- elem_of_dom, (dom_standard_document now record). Qed.

Lemma exception_not_standard_key : "exception" ∉ standard_keys.
Proof. apply (bool_decide_eq_false_1 _). by vm_compute. Qed.

Lemma exception_not_default : "exception" ∉ DEFAULT_PROPERTIES.
Proof. apply (bool_decide_eq_false_1 _). by vm_compute. Qed.

Lemma format_no_levelname now record doc :
  format now record = Ok doc → doc !! "levelname" = None.
Proof.
  intros (std & dec & Hstd & Hdec & ->)%format_lookup.
  assert ("levelname" ∈ DEFAULT_PROPERTIES) as Hin.
  { apply (bool_decide_eq_true_1 _). by vm_compute. }
  rewrite decide_False by (rewrite contextual_extra_spec; tauto).
  rewrite (decorate_exception_lookup record std dec) by done.
  apply eq_None_not_Some.
  rewrite (standard_document_lookup_is_Some now record) by done.
  apply (bool_decide_eq_false_1 _). by vm_compute.
Qed.

End FormatFacts.

Section FormatClaims.
Context `{Logging}.
Import MongoFormatter.

(** C4 (as amended).  In the document [format] returns, every attribute
    of the record outside the default set is under its own name with its
    own value.  A standard key keeps its standard value whenever the
    record has no extra attribute of that name, which is always so for
    [thread], [threadName] and [module]; an extra named like one of the
    other standard keys takes the place of the standard value. *)
Theorem format_extras_and_standard_keys (now : pyval) (record : LogRecord)
    (doc : Document) :
  format now record = Ok doc →
  ∃ std,
    standard_document now record = Ok std
    ∧ (∀ k v, __dict__ record !! k = Some v → k ∉ DEFAULT_PROPERTIES →
              doc !! k = Some v)
    ∧ (∀ k, k ∈ standard_keys → k ∉ contextual_extra (__dict__ record) →
              doc !! k = std !! k)
    ∧ doc !! "thread" = Some (thread record)
    ∧ doc !! "threadName" = Some (threadName record)
    ∧ doc !! "module" = Some (module record).
Proof.
  intros (std & dec & Hstd & Hdec & Hdoc)%format_lookup.
  exists std. split; [exact Hstd |].
  assert (∀ k, k ∈ DEFAULT_PROPERTIES → k ≠ "exception" →
    doc !! k = std !! k) as Hdef.
  { intros k Hk Hne. rewrite Hdoc, decide_False;
      [by eapply decorate_exception_lookup |].
    rewrite contextual_extra_spec. tauto. }
  assert (std !! "thread" = Some (thread record)
          ∧ std !! "threadName" = Some (threadName record)
          ∧ std !! "module" = Some (module record)) as (Ht & Htn & Hm).
  { apply standard_document_Ok in Hstd as (message & _ & ->).
    by repeat split. }
  split; [| split; [| split; [| split]]].
  - intros k v Hv Hk. rewrite Hdoc, decide_True; [done |].
    apply contextual_extra_spec. split; [| done].
    apply elem_of_dom. rewrite <- dict_lookup_extra by done. eauto.
  - intros k Hk Hno. rewrite Hdoc, decide_False by done.
    eapply decorate_exception_lookup; [done |]. intros ->.
    by apply exception_not_standard_key.
  - rewrite Hdef; [done | | done].
    apply (bool_decide_eq_true_1 ("thread" ∈ DEFAULT_PROPERTIES)).
    by vm_compute.
  - rewrite Hdef; [done | | done].
    apply (bool_decide_eq_true_1 ("threadName" ∈ DEFAULT_PROPERTIES)).
    by vm_compute.
  - rewrite Hdef; [done | | done].
    apply (bool_decide_eq_true_1 ("module" ∈ DEFAULT_PROPERTIES)).
    by vm_compute.
Qed.


(** C6 (as amended).  When the record's [exc_info] is not [None], its
    element 1 can be read and turned into a string, [formatException] and
    [getMessage()] return, and the record has no extra attribute named
    [exception], [format] returns a document that holds under
    ['exception'] a nested dictionary whose [message] is [str] of
    [exc_info[1]] and whose [code] is 0. *)
Theorem format_exception_object (now : pyval) (record : LogRecord)
    (value : pyval) (message stack text : string) :
  exc_info record ≠ PyNone →
  subscript (exc_info record) 1 = Ok value →
  str value = Ok message →
  formatException (exc_info record) = Ok stack →
  getMessage record = Ok text →
  extra record !! "exception" = None →
  ∃ (doc d : Document),
    format now record = Ok doc
    ∧ doc !! "exception" = Some (PyDict d)
    ∧ d !! "message" = Some (PyStr message)
    ∧ d !! "code" = Some (PyInt 0)
    ∧ d !! "stackTrace" = Some (PyStr stack).
Proof.
  intros Hexc Hsub Hstr Hfe Hmsg Hno.
  destruct (standard_document now record) as [std | e] eqn:Hstd.
  2:{ revert Hstd. unfold standard_document, result_bind.
      by rewrite Hmsg. }
  assert (decorate_exception record std
          = Ok (<["exception" := PyDict (exception_document message stack)]>
                  std)) as Hdec.
  { rewrite decorate_exception_unfold.
    assert (is_none (exc_info record) = false) as ->
      by (by destruct (exc_info record)).
    unfold result_bind. by rewrite Hsub, Hstr, Hfe. }
  eexists _, (exception_document message stack).
  split; [unfold format, result_bind; by rewrite Hstd, Hdec |].
  split; [| by repeat split].
  rewrite copy_extras_lookup by apply dict_has_defaults.
  rewrite decide_False; [by rewrite lookup_insert_eq |].
  rewrite contextual_extra_spec. intros [Hin _].
  apply elem_of_dom in Hin. rewrite Hno in Hin. by destruct Hin.
Qed.

End FormatClaims.

(** ** The handlers *)

Section HandlerFacts.
Context `{Logging} {C : Type} `{Collection C}.
Import BufferedMongoHandler.

Lemma MongoHandler_emit_returns now record (h : MongoHandler.t C) :
  (MongoHandler.emit now record h).2 = Returned.
Proof.
  unfold MongoHandler.emit. destruct (MongoHandler.collection h); [| done].
  destruct (MongoFormatter.format now record) as [doc | e0].
  - destruct (insert_one _ _) as [coll' [e|]]; [| done].
    by destruct (MongoHandler.fail_silently h).
  - by destruct (MongoHandler.fail_silently h).
Qed.

(** The two ways of the buffered [emit], by what [format] does. *)
Lemma emit_Ok now record (h : t C) (doc : Document) :
  MongoFormatter.format now record = Ok doc →
  emit now record h
  = (let h1 := set_buffer (set_last_record h record) (buffer h ++ [doc]) in
     if bool_decide (buffer_size h1 ≤ Z.of_nat (length (buffer h1)))
        || bool_decide (buffer_early_flush_level h1 ≤ levelno record)
     then flush_to_mongo h1
     else (h1, [], Returned)).
Proof. intros Hfmt. unfold emit. by rewrite Hfmt. Qed.

Lemma emit_Err now record (h : t C) (e : exn) :
  MongoFormatter.format now record = Err e →
  emit now record h = (set_last_record h record, [], Raised e).
Proof. intros Hfmt. unfold emit. by rewrite Hfmt. Qed.

Lemma buffer_formatted_no_levelname (h : t C) :
  buffer_formatted h →
  Forall (λ d : Document, d !! "levelname" = None) (buffer h).
Proof.
  intros Hall. eapply Forall_impl; [exact Hall |].
  intros d (now & record & Hd). by eapply format_no_levelname.
Qed.

(** The fallback loop on documents without a ['levelname'] key: nothing
    is printed; it ends normally when every write went through, and with
    [KeyError] at the first write that did not. *)
Lemma insert_one_by_one_spec e1 (msgs : list Document) (coll : C) :
  Forall (λ d : Document, d !! "levelname" = None) msgs →
  ∃ coll' evs o,
    insert_one_by_one e1 msgs coll = (coll', evs, o)
    ∧ List.filter is_print evs = []
    ∧ match o with
      | Returned => evs = map written_ok msgs
      | Raised e =>
          e = KeyError "levelname"
          ∧ ∃ pre msg post e2,
              msgs = pre ++ msg :: post
              ∧ evs = map written_ok pre ++ [InsertOne msg (Some e2)]
      end.
Proof.
  intros Hall. revert coll.
  induction Hall as [| msg rest Hmsg Hrest IH]; intros coll; simpl.
  - by exists coll, [], Returned.
  - destruct (insert_one msg coll) as [coll1 [e2|]].
    + rewrite Hmsg.
      exists coll1, [InsertOne msg (Some e2)], (Raised (KeyError "levelname")).
      repeat split; try done. by exists [], msg, rest, e2.
    + destruct (IH coll1) as (coll2 & evs & o & -> & Hpr & Ho).
      exists coll2, (InsertOne msg None :: evs), o.
      repeat split; try done.
      destruct o as [| e]; [by rewrite Ho |].
      destruct Ho as (-> & pre & m & post & e2 & -> & ->).
      split; [done |]. by exists (msg :: pre), m, post, e2.
Qed.

(** The loop itself never enters [flush_to_mongo]. *)
Lemma insert_one_by_one_no_flush e1 (msgs : list Document) (coll : C) :
  List.filter is_flush (insert_one_by_one e1 msgs coll).1.2 = [].
Proof.
  revert coll. induction msgs as [| msg rest IH]; intros coll; simpl; [done |].
  destruct (insert_one msg coll) as [coll1 [e2|]].
  - destruct (msg !! "levelname") as [lv|]; [| done].
    specialize (IH coll1). destruct (insert_one_by_one e1 rest coll1) as [[c evs] o].
    simpl in *. rewrite List.filter_app, IH. by destruct (py_ne_str lv "DEBUG").
  - specialize (IH coll1). by destruct (insert_one_by_one e1 rest coll1) as [[c evs] o].
Qed.

(** When the loop raises, a write has failed. *)
Lemma insert_one_by_one_raised e1 (msgs : list Document) (coll : C) coll' evs e :
  insert_one_by_one e1 msgs coll = (coll', evs, Raised e) →
  Exists is_failed_insert_one evs.
Proof.
  revert coll coll' evs.
  induction msgs as [| msg rest IH]; intros coll coll' evs; simpl; [done |].
  destruct (insert_one msg coll) as [coll1 [e2|]].
  - destruct (msg !! "levelname");
      [destruct (insert_one_by_one e1 rest coll1) as [[c evs'] o] |];
      intros [= <- <- ?]; by apply Exists_cons_hd.
  - destruct (insert_one_by_one e1 rest coll1) as [[c evs'] o] eqn:Heq.
    intros [= <- <- ->]. apply Exists_cons_tl. by eapply IH.
Qed.

Lemma flush_count_flush_to_mongo (h : t C) :
  flush_count (flush_to_mongo h).1.2 = 1%nat.
Proof.
  unfold flush_count, flush_to_mongo.
  destruct (collection h) as [coll|]; [| done].
  case_bool_decide; [| done].
  destruct (insert_many (buffer h) coll) as [coll1 [e1|]]; [| done].
  pose proof (insert_one_by_one_no_flush e1 (buffer h) coll1) as Hno.
  destruct (insert_one_by_one e1 (buffer h) coll1) as [[c evs] [|e]];
    simpl in *; by rewrite Hno.
Qed.

(** A flush empties the buffer or leaves it as it was. *)
Lemma flush_to_mongo_buffer (h h' : t C) evs o :
  flush_to_mongo h = (h', evs, o) →
  buffer h' = [] ∨ buffer h' = buffer h.
Proof.
  unfold flush_to_mongo.
  destruct (collection h) as [coll|]; [| intros [= <- _ _]; by right].
  case_bool_decide; [| intros [= <- _ _]; by right].
  destruct (insert_many (buffer h) coll) as [coll1 [e1|]];
    [| intros [= <- _ _]; by left].
  destruct (insert_one_by_one e1 (buffer h) coll1) as [[c evs'] [| e]];
    intros [= <- _ _]; [by left | by right].
Qed.

(** [buffer_formatted] holds of a new handler, whose buffer is empty, and
    is kept by [flush_to_mongo] and by [emit]. *)
Lemma buffer_formatted_flush_to_mongo (h h' : t C) evs o :
  buffer_formatted h → flush_to_mongo h = (h', evs, o) → buffer_formatted h'.
Proof.
  unfold buffer_formatted. intros Hfmt [-> | ->]%flush_to_mongo_buffer;
    [apply Forall_nil_2 | done].
Qed.

Lemma buffer_formatted_emit now record (h h' : t C) evs o :
  buffer_formatted h → emit now record h = (h', evs, o) → buffer_formatted h'.
Proof.
  intros Hfmt.
  destruct (MongoFormatter.format now record) as [doc | e] eqn:Hdoc.
  - rewrite (emit_Ok now record h doc Hdoc). cbv zeta.
    set (h1 := set_buffer _ _).
    assert (buffer_formatted h1) as Hfmt1.
    { apply Forall_app. split; [done |]. apply Forall_singleton. eauto. }
    destruct (_ || _).
    + by apply buffer_formatted_flush_to_mongo.
    + by intros [= <- _ _].
  - rewrite (emit_Err now record h e Hdoc). by intros [= <- _ _].
Qed.

End HandlerFacts.

Section HandlerClaims.
Context `{Logging} {C : Type} `{Collection C}.
Import BufferedMongoHandler.

Lemma written_ok_not_failed (docs : list Document) :
  ¬ Exists is_failed_insert_one (map written_ok docs).
Proof.
  induction docs as [| d docs IH]; simpl; [by intros ?%Exists_nil |].
  intros [Hd | Hr]%Exists_cons; [done | by apply IH].
Qed.

(** What a flush does once a single write has failed: with documents
    produced by [format], the lookup of ['levelname'] raises [KeyError],
    which leaves [flush_to_mongo] before [empty_buffer]. *)
Lemma flush_to_mongo_failed_write (h h' : t C) evs o :
  buffer_formatted h →
  flush_to_mongo h = (h', evs, o) →
  Exists is_failed_insert_one evs →
  o = Raised (KeyError "levelname") ∧ buffer h' = buffer h ∧ buffer h' ≠ [].
Proof.
  intros Hfmt%buffer_formatted_no_levelname. unfold flush_to_mongo.
  destruct (collection h) as [coll|];
    [| intros [= <- <- <-] [?|?%Exists_nil]%Exists_cons; done].
  case_bool_decide as Hlen;
    [| intros [= <- <- <-] [?|?%Exists_nil]%Exists_cons; done].
  destruct (insert_many (buffer h) coll) as [coll1 [e1|]].
  - destruct (insert_one_by_one_spec e1 (buffer h) coll1 Hfmt)
      as (coll2 & evs' & o' & -> & _ & Ho).
    destruct o' as [| e].
    + subst evs'. intros [= <- <- <-] [?|[?|Hex]%Exists_cons]%Exists_cons;
        [done | done | by apply written_ok_not_failed in Hex].
    + destruct Ho as (-> & _). intros [= <- <- <-] _. simpl.
      repeat split. intros Hnil. rewrite Hnil in Hlen. simpl in Hlen. lia.
  - intros [= <- <- <-] [?|[?|?%Exists_nil]%Exists_cons]%Exists_cons; done.
Qed.

(** A flush on a bound collection that met no failed single write ends
    normally with an empty buffer. *)
Lemma flush_to_mongo_bound_ok (h h' : t C) evs o :
  is_Some (collection h) →
  flush_to_mongo h = (h', evs, o) →
  ¬ Exists is_failed_insert_one evs →
  o = Returned ∧ buffer h' = [].
Proof.
  intros [coll Hcoll]. unfold flush_to_mongo. rewrite Hcoll.
  case_bool_decide as Hlen.
  - destruct (insert_many (buffer h) coll) as [coll1 [e1|]].
    + destruct (insert_one_by_one e1 (buffer h) coll1) as [[coll2 evs'] [| e]] eqn:Hloop.
      * by intros [= <- <- <-] _.
      * intros [= <- <- <-] Hno. destruct Hno.
        do 2 apply Exists_cons_tl. by eapply insert_one_by_one_raised.
    + by intros [= <- <- <-] _.
  - intros [= <- <- <-] _. split; [done |].
    destruct (buffer h); [done | simpl in Hlen; lia].
Qed.

(** C1 (the code at a failing bulk write).  With a bound collection and a
    buffer of formatted documents whose bulk write fails, the documents
    are tried one by one only up to the first that fails: there the
    lookup of ['levelname'] raises [KeyError], nothing is printed and the
    documents after it are not tried. *)
Theorem flush_fallback_stops_at_first_failure (h : t C) (coll coll1 : C)
    (e1 : exn) :
  collection h = Some coll →
  buffer h ≠ [] →
  buffer_formatted h →
  insert_many (buffer h) coll = (coll1, Some e1) →
  ∃ h' evs o,
    flush_to_mongo h
    = (h', FlushCalled :: InsertMany (buffer h) (Some e1) :: evs, o)
    ∧ List.filter is_print evs = []
    ∧ match o with
      | Returned => evs = map written_ok (buffer h)
      | Raised e =>
          e = KeyError "levelname"
          ∧ ∃ pre msg post e2,
              buffer h = pre ++ msg :: post
              ∧ evs = map written_ok pre ++ [InsertOne msg (Some e2)]
      end.
Proof.
  intros Hcoll Hne Hfmt%buffer_formatted_no_levelname Hbulk.
  unfold flush_to_mongo. rewrite Hcoll.
  rewrite bool_decide_eq_true_2
    by (destruct (buffer h); [done | simpl; lia]).
  rewrite Hbulk.
  destruct (insert_one_by_one_spec e1 (buffer h) coll1 Hfmt)
    as (coll2 & evs & o & -> & Hpr & Ho).
  destruct o as [| e]; eauto 10.
Qed.

(** C2 (the code after a failed single write).  Whenever a flush over
    formatted documents meets a single write that fails, it ends with
    [KeyError] and the buffer is what it was: nothing is dropped. *)
Theorem flush_keeps_buffer_after_failed_write (h h' : t C) evs o :
  buffer_formatted h →
  flush_to_mongo h = (h', evs, o) →
  Exists is_failed_insert_one evs →
  o = Raised (KeyError "levelname") ∧ buffer h' = buffer h ∧ buffer h' ≠ [].
Proof. apply flush_to_mongo_failed_write. Qed.

(** C3 (the code after a failed single write).  Whenever an [emit] of
    the buffered handler runs a flush in which a single write fails, the
    [KeyError] leaves [emit]: the caller gets the exception. *)
Theorem buffered_emit_raises_after_failed_write now record (h h' : t C) evs o :
  buffer_formatted h →
  emit now record h = (h', evs, o) →
  Exists is_failed_insert_one evs →
  o = Raised (KeyError "levelname").
Proof.
  intros Hfmt.
  destruct (MongoFormatter.format now record) as [doc | e] eqn:Hdoc.
  - rewrite (emit_Ok now record h doc Hdoc). cbv zeta.
    destruct (_ || _).
    + intros Hflush Hex.
      eapply flush_to_mongo_failed_write in Hflush as (-> & _);
        [done | | done].
      apply Forall_app. split; [done |]. apply Forall_singleton. eauto.
    + by intros [= <- <- <-] ?%Exists_nil.
  - rewrite (emit_Err now record h e Hdoc).
    by intros [= <- <- <-] ?%Exists_nil.
Qed.

End HandlerClaims.

Section BufferClaims.
Context `{Logging} {C : Type} `{Collection C}.
Import BufferedMongoHandler.

Lemma emit_all_app (recs1 recs2 : list (pyval * LogRecord)) (h : t C) :
  emit_all (recs1 ++ recs2) h
  = match emit_all recs1 h with
    | (h1, evs1, Returned) =>
        let '(h2, evs2, o) := emit_all recs2 h1 in (h2, evs1 ++ evs2, o)
    | (h1, evs1, Raised e) => (h1, evs1, Raised e)
    end.
Proof.
  revert h. induction recs1 as [| [now record] recs1 IH]; intros h; simpl.
  - by destruct (emit_all recs2 h) as [[h2 evs2] o].
  - destruct (emit now record h) as [[h1 evs1] [| e]]; [| done].
    rewrite IH. destruct (emit_all recs1 h1) as [[h2 evs2] [| e]]; [| done].
    destruct (emit_all recs2 h2) as [[h3 evs3] o]. by rewrite app_assoc.
Qed.

Lemma formatted_cons_Ok now record (recs : list (pyval * LogRecord))
    (doc : Document) :
  MongoFormatter.format now record = Ok doc →
  formatted ((now, record) :: recs) = doc :: formatted recs.
Proof. intros Hdoc. unfold formatted. simpl. by rewrite Hdoc. Qed.

Lemma formatted_app (recs1 recs2 : list (pyval * LogRecord)) :
  formatted (recs1 ++ recs2) = formatted recs1 ++ formatted recs2.
Proof. unfold formatted. apply omap_app. Qed.

Lemma length_formatted (recs : list (pyval * LogRecord)) :
  formattable recs → length (formatted recs) = length recs.
Proof.
  induction 1 as [| [now record] recs [doc Hdoc] _ IH]; [done |].
  simpl in Hdoc. rewrite (formatted_cons_Ok now record recs doc Hdoc).
  simpl. by rewrite IH.
Qed.

(** Records below the early-flush level, as long as the buffer stays
    short of its capacity, are only appended. *)
Lemma emit_all_no_trigger (recs : list (pyval * LogRecord)) (h : t C) :
  formattable recs →
  Forall (λ nr, levelno nr.2 < buffer_early_flush_level h) recs →
  Z.of_nat (length (buffer h) + length recs) < buffer_size h →
  ∃ h1,
    emit_all recs h = (h1, [], Returned)
    ∧ buffer h1 = buffer h ++ formatted recs
    ∧ super h1 = super h
    ∧ buffer_size h1 = buffer_size h
    ∧ buffer_early_flush_level h1 = buffer_early_flush_level h.
Proof.
  intros Hfmt. revert h.
  induction Hfmt as [| [now record] recs [doc Hdoc] _ IH];
    intros h Hall Hlen.
  - exists h. simpl. by rewrite app_nil_r.
  - simpl in Hdoc. rewrite (formatted_cons_Ok now record recs doc Hdoc).
    simpl.
    apply Forall_cons in Hall as [Hlvl Hall]. simpl in *.
    rewrite (emit_Ok now record h doc Hdoc). cbv zeta. simpl.
    rewrite length_app. simpl.
    rewrite bool_decide_eq_false_2 by lia.
    rewrite bool_decide_eq_false_2 by lia. simpl.
    edestruct IH as (h1 & -> & Hbuf & Hsup & Hsz & Hlv);
      [exact Hall | simpl; rewrite length_app; simpl; lia |].
    exists h1. simpl in *. rewrite Hbuf, <- app_assoc. done.
Qed.

(** C7 (as amended).  From an empty buffer, with capacity [N] equal to
    the number of records emitted, all of them below the early-flush
    level and such that [format] returns a document for each: the first
    [N - 1] calls only fill the buffer, and the whole run enters
    [flush_to_mongo] exactly once, in the [N]th call.  When the
    collection is bound and no single write of that flush fails, the
    [N]th call returns and leaves the buffer empty; when the collection is
    unbound, the [N]th call returns and the [N] documents are still in the
    buffer. *)
Theorem capacity_trigger (recs : list (pyval * LogRecord)) (now : pyval)
    (record : LogRecord) (h h' : t C) evs o :
  buffer h = [] →
  buffer_size h = Z.of_nat (length recs) + 1 →
  formattable (recs ++ [(now, record)]) →
  Forall (λ nr, levelno nr.2 < buffer_early_flush_level h)
         (recs ++ [(now, record)]) →
  emit_all (recs ++ [(now, record)]) h = (h', evs, o) →
  (∃ h1, emit_all recs h = (h1, [], Returned) ∧ buffer h1 = formatted recs)
  ∧ flush_count evs = 1%nat
  ∧ (is_Some (collection h) → ¬ Exists is_failed_insert_one evs →
     o = Returned ∧ buffer h' = [])
  ∧ (collection h = None →
     o = Returned ∧ buffer h' = formatted (recs ++ [(now, record)])).
Proof.
  intros Hempty Hsize [Hfmt Hfmtlast]%Forall_app [Hall Hlast]%Forall_app.
  apply Forall_singleton in Hfmtlast as [doc Hdoc]. simpl in Hdoc.
  destruct (emit_all_no_trigger recs h Hfmt Hall)
    as (h1 & Hrun & Hbuf & Hsup & Hsz & Hlv).
  { rewrite Hempty. simpl. lia. }
  rewrite Hempty in Hbuf. simpl in Hbuf.
  rewrite emit_all_app, Hrun. simpl.
  rewrite (emit_Ok now record h1 doc Hdoc). cbv zeta. simpl.
  rewrite Hbuf, length_app, Hsz, Hsize. simpl.
  rewrite length_formatted by done.
  rewrite bool_decide_eq_true_2 by lia. simpl.
  set (h2 := set_buffer _ _).
  pose proof (flush_count_flush_to_mongo h2) as Hcount.
  destruct (flush_to_mongo h2) as [[h3 evs3] o3] eqn:Hflush.
  intros Heq. assert (h' = h3 ∧ evs = evs3 ∧ o = o3) as (-> & -> & ->).
  { destruct o3; simplify_eq; by rewrite ?app_nil_r. }
  assert (collection h2 = collection h) as Hcoll
    by (unfold collection; subst h2; simpl; by rewrite Hsup).
  split; [eauto |]. split; [done |]. split.
  - intros Hbound Hno. eapply flush_to_mongo_bound_ok; [| exact Hflush | done].
    by rewrite Hcoll.
  - intros Hnone. unfold flush_to_mongo in Hflush.
    rewrite Hcoll, Hnone in Hflush. injection Hflush as <- _ <-.
    split; [done |]. subst h2. simpl.
    rewrite formatted_app, (formatted_cons_Ok now record [] doc Hdoc). done.
Qed.



(** After a [destroy] in which no single write failed, a second
    [destroy] returns and makes no write. *)
Lemma destroy_again_when_writes_went_through (h h1 : t C) evs1 o1 :
  destroy h = (h1, evs1, o1) →
  ¬ Exists is_failed_insert_one evs1 →
  o1 = Returned
  ∧ ∃ h2 evs2, destroy h1 = (h2, evs2, Returned)
               ∧ List.filter is_write evs2 = [].
Proof.
  unfold destroy.
  set (h0 := if _timer_stopper h then set_timer_stopped h else h).
  assert ((if _timer_stopper h then (set_timer_stopped h, [TimerStop])
           else (h, [])) = (h0, if _timer_stopper h then [TimerStop] else []))
    as -> by (subst h0; by destruct (_timer_stopper h)).
  destruct (flush_to_mongo h0) as [[h' evs'] o'] eqn:Hflush.
  assert (collection h' = None ∨ buffer h' = [] → ∃ h2 evs2,
    (let '(h, evs0) :=
       if _timer_stopper h' then (set_timer_stopped h', [TimerStop])
       else (h', []) in
     match flush_to_mongo h with
     | (h, evs1, Returned) =>
         (h, evs0 ++ evs1 ++ MongoHandler.close (super h), Returned)
     | (h, evs1, Raised e) => (h, evs0 ++ evs1, Raised e)
     end) = (h2, evs2, Returned) ∧ List.filter is_write evs2 = []) as Hsecond.
  { intros Hidle.
    assert (∀ h'' : t C, collection h'' = collection h' →
              buffer h'' = buffer h' →
              flush_to_mongo h'' = (h'', [FlushCalled], Returned)) as Hnop.
    { intros h'' Hc Hb. unfold flush_to_mongo. rewrite Hc, Hb.
      destruct Hidle as [-> | ->]; [done |].
      by destruct (collection h'). }
    assert (∀ hh : MongoHandler.t C,
              List.filter is_write (MongoHandler.close hh) = []) as Hclose.
    { intros hh. unfold MongoHandler.close.
      by destruct (MongoHandler.authenticated hh), (MongoHandler.connection hh). }
    destruct (_timer_stopper h'); rewrite Hnop by done;
      do 2 eexists; (split; [done |]); simpl; apply Hclose. }
  destruct o' as [| e].
  - intros [= <- <- <-] Hno. split; [done |]. apply Hsecond.
    destruct (collection h0) as [coll|] eqn:Hcoll.
    + right. eapply flush_to_mongo_bound_ok; [by rewrite Hcoll | exact Hflush |].
      intros Hex. apply Hno. apply Exists_app. right. apply Exists_app. by left.
    + left. unfold flush_to_mongo in Hflush. rewrite Hcoll in Hflush.
      by simplify_eq.
  - intros [= <- <- <-] Hno. destruct Hno. apply Exists_app. right.
    unfold flush_to_mongo in Hflush.
    destruct (collection h0) as [coll|]; [| done].
    case_bool_decide; [| done].
    destruct (insert_many (buffer h0) coll) as [coll1 [e1|]]; [| done].
    destruct (insert_one_by_one e1 (buffer h0) coll1) as [[coll2 evs2] [| e']] eqn:Hloop;
      [done |].
    simplify_eq. do 2 apply Exists_cons_tl. by eapply insert_one_by_one_raised.
Qed.

End BufferClaims.

(** ** Concrete runs *)

Section Runs.
Import MongoFormatter BufferedMongoHandler.
Existing Instance plain_logging.
Existing Instance fake_collection.

(** An extra named [level] takes the place of the record's level name in
    the document. *)
Lemma format_level_extra_replaces_level :
  format noon level_extra_record = Ok (noon_doc level_extra_record)
  ∧ standard_document noon level_extra_record
    = Ok (noon_standard level_extra_record)
  ∧ "level" ∈ standard_keys
  ∧ "level" ∈ contextual_extra (__dict__ level_extra_record)
  ∧ noon_standard level_extra_record !! "level" = Some (PyStr "INFO")
  ∧ noon_doc level_extra_record !! "level" = Some (PyStr "custom")
  ∧ noon_doc level_extra_record !! "level"
    ≠ noon_standard level_extra_record !! "level".
Proof.
  split; [by vm_compute |]. split; [by vm_compute |].
  split; [apply (bool_decide_eq_true_1 _); by vm_compute |].
  split; [apply (bool_decide_eq_true_1 _); by vm_compute |].
  repeat split; by vm_compute.
Qed.

Lemma format_extras_and_standard_keys_witness :
  format noon user_extra_record = Ok (noon_doc user_extra_record)
  ∧ noon_doc user_extra_record !! "user" = Some (PyStr "alice")
  ∧ noon_doc user_extra_record !! "level" = Some (PyStr "INFO").
Proof.
  assert (format noon user_extra_record = Ok (noon_doc user_extra_record))
    as Hdoc by (by vm_compute).
  destruct (format_extras_and_standard_keys noon user_extra_record
              (noon_doc user_extra_record) Hdoc)
    as (std & Hstd & Hextra & Hkeep & _).
  assert (std = noon_standard user_extra_record) as ->.
  { apply Ok_inj. rewrite <- Hstd. by vm_compute. }
  split; [exact Hdoc |]. split.
  - apply Hextra; [by vm_compute |].
    apply (bool_decide_eq_false_1 _). by vm_compute.
  - rewrite Hkeep; [by vm_compute | |].
    + apply (bool_decide_eq_true_1 _). by vm_compute.
    + apply (bool_decide_eq_false_1 _). by vm_compute.
Defined.



(** An extra named [exception] takes the place of the nested exception
    object. *)
Lemma format_exception_extra_replaces_object :
  exc_info exception_extra_record = traceback
  ∧ format noon exception_extra_record = Ok (noon_doc exception_extra_record)
  ∧ noon_doc exception_extra_record !! "exception" = Some (PyStr "boom")
  ∧ ¬ ∃ d : Document,
        noon_doc exception_extra_record !! "exception" = Some (PyDict d).
Proof.
  assert (noon_doc exception_extra_record !! "exception"
          = Some (PyStr "boom")) as Heq by (by vm_compute).
  split; [reflexivity |]. split; [by vm_compute |]. split; [exact Heq |].
  intros [d Hd]. rewrite Heq in Hd. discriminate.
Qed.

Lemma format_exception_object_witness :
  exc_info error_record ≠ PyNone
  ∧ subscript (exc_info error_record) 1 = Ok (PyStr "exc1")
  ∧ extra error_record !! "exception" = None
  ∧ ∃ (doc d : Document),
      format noon error_record = Ok doc
      ∧ doc !! "exception" = Some (PyDict d)
      ∧ d !! "message" = Some (PyStr "exc1")
      ∧ d !! "code" = Some (PyInt 0)
      ∧ d !! "stackTrace"
        = Some (PyStr "Traceback (most recent call last): ...").
Proof.
  assert (exc_info error_record ≠ PyNone) as Hne by discriminate.
  split; [exact Hne |]. split; [reflexivity |]. split; [reflexivity |].
  exact (format_exception_object noon error_record (PyStr "exc1") "exc1"
           "Traceback (most recent call last): ..." "failed"
           Hne eq_refl eq_refl eq_refl eq_refl eq_refl).
Defined.

Lemma info_doc_formatted (text : string) :
  format noon (info_record text) = Ok (info_doc text).
Proof. reflexivity. Qed.

Lemma down_handler_formatted : buffer_formatted down_handler.
Proof.
  apply List.Forall_cons; [| apply List.Forall_nil].
  exists noon, (info_record "hello"). reflexivity.
Defined.

Lemma flush_fallback_stops_at_first_failure_witness :
  ∃ h' evs o,
    flush_to_mongo down_handler
    = (h', FlushCalled :: InsertMany (buffer down_handler) (Some bulk_refused)
           :: evs, o)
    ∧ List.filter is_print evs = []
    ∧ match o with
      | Returned => evs = map written_ok (buffer down_handler)
      | Raised e =>
          e = KeyError "levelname"
          ∧ ∃ pre msg post e2,
              buffer down_handler = pre ++ msg :: post
              ∧ evs = map written_ok pre ++ [InsertOne msg (Some e2)]
      end.
Proof.
  apply (flush_fallback_stops_at_first_failure down_handler down down
           bulk_refused).
  - reflexivity.
  - discriminate.
  - exact down_handler_formatted.
  - reflexivity.
Defined.

(** The run of [flush_to_mongo] on [down_handler]: the bulk write and
    the one single write fail, no report is printed, [KeyError] is
    raised and the document stays in the buffer. *)
Lemma flush_down_handler :
  flush_to_mongo down_handler
  = (down_handler,
     [FlushCalled;
      InsertMany [info_doc "hello"] (Some bulk_refused);
      InsertOne (info_doc "hello") (Some single_refused)],
     Raised (KeyError "levelname")).
Proof. by vm_compute. Qed.

Lemma flush_keeps_buffer_after_failed_write_witness :
  (flush_to_mongo down_handler).2 = Raised (KeyError "levelname")
  ∧ buffer (flush_to_mongo down_handler).1.1 = [info_doc "hello"]
  ∧ buffer (flush_to_mongo down_handler).1.1 ≠ [].
Proof.
  destruct (flush_keeps_buffer_after_failed_write down_handler
              (flush_to_mongo down_handler).1.1
              (flush_to_mongo down_handler).1.2
              (flush_to_mongo down_handler).2) as (Ho & Hbuf & Hne).
  - exact down_handler_formatted.
  - by vm_compute.
  - do 2 apply Exists_cons_tl. apply Exists_cons_hd. exact I.
  - split; [exact Ho |]. split; [| exact Hne]. rewrite Hbuf. reflexivity.
Defined.

Lemma buffered_emit_raises_after_failed_write_witness :
  (emit noon (critical_record "disk full") idle_down_handler).2
  = Raised (KeyError "levelname").
Proof.
  apply (buffered_emit_raises_after_failed_write
           noon (critical_record "disk full") idle_down_handler
           (emit noon (critical_record "disk full") idle_down_handler).1.1
           (emit noon (critical_record "disk full") idle_down_handler).1.2).
  - apply List.Forall_nil.
  - by vm_compute.
  - do 2 apply Exists_cons_tl. apply Exists_cons_hd. exact I.
Defined.

(** With an unbound collection and capacity 1, the one [emit] enters
    [flush_to_mongo] once and returns, and the document is still in the
    buffer. *)
Lemma capacity_trigger_unbound_keeps_buffer :
  buffer unbound_handler = []
  ∧ buffer_size unbound_handler = 1
  ∧ levelno (info_record "a") < buffer_early_flush_level unbound_handler
  ∧ flush_count (emit_all [(noon, info_record "a")] unbound_handler).1.2
    = 1%nat
  ∧ (emit_all [(noon, info_record "a")] unbound_handler).2 = Returned
  ∧ buffer (emit_all [(noon, info_record "a")] unbound_handler).1.1
    = [info_doc "a"]
  ∧ buffer (emit_all [(noon, info_record "a")] unbound_handler).1.1 ≠ [].
Proof. repeat split; by vm_compute. Qed.

Lemma capacity_trigger_witness :
  flush_count
    (emit_all [(noon, info_record "a"); (noon, info_record "b")]
              small_handler).1.2 = 1%nat
  ∧ (emit_all [(noon, info_record "a"); (noon, info_record "b")]
              small_handler).2 = Returned
  ∧ buffer (emit_all [(noon, info_record "a"); (noon, info_record "b")]
                     small_handler).1.1 = [].
Proof.
  destruct (capacity_trigger [(noon, info_record "a")] noon (info_record "b")
              small_handler
              (emit_all [(noon, info_record "a"); (noon, info_record "b")]
                        small_handler).1.1
              (emit_all [(noon, info_record "a"); (noon, info_record "b")]
                        small_handler).1.2
              (emit_all [(noon, info_record "a"); (noon, info_record "b")]
                        small_handler).2) as (_ & Hcount & Hempty & _).
  - reflexivity.
  - reflexivity.
  - repeat (apply List.Forall_cons; [by eexists |]). apply List.Forall_nil.
  - repeat (apply List.Forall_cons; [by vm_compute |]). apply List.Forall_nil.
  - by vm_compute.
  - split; [exact Hcount |]. apply Hempty.
    + by exists up.
    + vm_compute.
      intros [Hev | [Hev | Hev%Exists_nil]%Exists_cons]%Exists_cons; done.
Defined.





(** C9 (the code when a write fails at shutdown).  On a handler holding
    two documents of which the storage refuses the second, each of two
    successive [destroy] calls writes the first document and then raises
    the [KeyError] of the second: [destroy] raises, [close] is not
    reached, the buffer is kept, and the first document is stored twice. *)
Theorem destroy_twice_raises_and_writes_again :
  ∃ h1 h2,
    destroy shutdown_handler
    = (h1,
       [TimerStop; FlushCalled;
        InsertMany [info_doc "kept"; info_doc "refused"] (Some bulk_refused);
        InsertOne (info_doc "kept") None;
        InsertOne (info_doc "refused") (Some single_refused)],
       Raised (KeyError "levelname"))
    ∧ buffer h1 = [info_doc "kept"; info_doc "refused"]
    ∧ destroy h1
      = (h2,
         [TimerStop; FlushCalled;
          InsertMany [info_doc "kept"; info_doc "refused"] (Some bulk_refused);
          InsertOne (info_doc "kept") None;
          InsertOne (info_doc "refused") (Some single_refused)],
         Raised (KeyError "levelname"))
    ∧ stored <$> collection h2 = Some [info_doc "kept"; info_doc "kept"].
Proof.
  exists (destroy shutdown_handler).1.1,
         (destroy (destroy shutdown_handler).1.1).1.1.
  repeat split; by vm_compute.
Qed.

End Runs.

(** * Further properties *)

(** ** The formatter *)

Section FormatMore.
Context `{Logging}.
Import MongoFormatter.

(** X1.  The keys of a document [format] returns are the ten standard
    keys, ['exception'] when the record's [exc_info] is not [None], and
    the names of the record's attributes outside the default set. *)
Theorem format_keys (now : pyval) (record : LogRecord) (doc : Document) :
  format now record = Ok doc →
  dom doc
  = standard_keys
    ∪ (if is_none (exc_info record) then ∅ else {["exception"]})
    ∪ contextual_extra (__dict__ record).
Proof.
  intros (std & dec & Hstd & Hdec & Hdoc)%format_lookup.
  apply set_eq. intros k. rewrite elem_of_dom, Hdoc.
  rewrite !elem_of_union.
  destruct (decide (k ∈ contextual_extra (__dict__ record))) as [Hk | Hk].
  - split; [by right |]. intros _. apply elem_of_dom.
    unfold contextual_extra in Hk. by apply elem_of_difference in Hk as [? _].
  - apply decorate_exception_Ok in Hdec
      as [[Hnone ->] | (Hsome & v & m & st & _ & _ & _ & ->)].
    + rewrite Hnone. simpl.
      rewrite (standard_document_lookup_is_Some now record) by done.
      split; [tauto |]. intros [[? | ?%not_elem_of_empty] | ?]; done.
    + assert (is_none (exc_info record) = false) as ->
        by (by destruct (exc_info record)).
      rewrite lookup_insert. case_decide as Heq.
      * subst k. split; [| by eauto]. intros _. left. right.
        by apply elem_of_singleton.
      * rewrite (standard_document_lookup_is_Some now record) by done.
        rewrite elem_of_singleton.
        split; [tauto |]. intros [[? | ?] | ?]; congruence.
Qed.

(** X2.  On a [record.__dict__] that has every name of
    [DEFAULT_PROPERTIES], as every record has that [LogRecord.__init__]
    built and from which no attribute was deleted, the two tests [format]
    makes before copying the extras (on the lengths, then on the
    emptiness of the difference) only save work: the result is the one
    that copying every attribute of the difference, unconditionally,
    gives. *)
Theorem format_tests_are_shortcuts (d : gmap string pyval)
    (document : Document) :
  DEFAULT_PROPERTIES ⊆ dom d →
  copy_extras d document
  = set_fold (copy_extra d) document (contextual_extra d).
Proof.
  intros Hsub. apply map_eq. intros k. rewrite copy_extras_lookup by done.
  rewrite copy_extra_fold_lookup; [done |].
  unfold contextual_extra. by apply subseteq_difference_l.
Qed.

(** X3.  The instant of the call reaches the document through
    ['timestamp'] only: whether [format] returns does not depend on it,
    and two documents of one record agree on every other key. *)
Theorem format_instant_only_in_timestamp (now1 now2 : pyval)
    (record : LogRecord) (doc1 : Document) :
  format now1 record = Ok doc1 →
  ∃ doc2,
    format now2 record = Ok doc2
    ∧ ∀ k, k ≠ "timestamp" → doc1 !! k = doc2 !! k.
Proof.
  intros (std1 & dec1 & Hstd1 & Hdec1 & Hdoc1)%format_lookup.
  apply standard_document_Ok in Hstd1 as (message & Hmsg & ->).
  set (std2 := list_to_map (standard_entries now2 record message) : Document).
  assert (standard_document now2 record = Ok std2) as Hstd2.
  { unfold standard_document, result_bind. by rewrite Hmsg. }
  assert (∀ k, k ≠ "timestamp" →
            (list_to_map (standard_entries now1 record message) : Document)
              !! k = std2 !! k) as Hstd.
  { intros k Hk. subst std2. unfold standard_entries.
    rewrite !list_to_map_cons. by rewrite !(lookup_insert_ne _ "timestamp"). }
  assert (∃ dec2, decorate_exception record std2 = Ok dec2
                  ∧ ∀ k, k ≠ "timestamp" → dec1 !! k = dec2 !! k)
    as (dec2 & Hdec2 & Hdec).
  { apply decorate_exception_Ok in Hdec1
      as [[Hnone ->] | (Hsome & v & m & st & Hv & Hm & Hst & ->)].
    - exists std2. split; [| done].
      rewrite decorate_exception_unfold. by rewrite Hnone.
    - eexists. split.
      + rewrite decorate_exception_unfold.
        assert (is_none (exc_info record) = false) as ->
          by (by destruct (exc_info record)).
        unfold result_bind. by rewrite Hv, Hm, Hst.
      + intros k Hk. rewrite !lookup_insert. case_decide; [done |].
        by apply Hstd. }
  exists (copy_extras (__dict__ record) dec2). split.
  - unfold format, result_bind. by rewrite Hstd2, Hdec2.
  - intros k Hk. rewrite Hdoc1.
    rewrite copy_extras_lookup by apply dict_has_defaults.
    destruct (decide (k ∈ contextual_extra (__dict__ record))); [done |].
    by apply Hdec.
Qed.

(** X4.  Of the record's default attribute names only [thread],
    [threadName] and [module] are keys of the document: under any other
    of them ([levelname], [levelno], [name], [msg], [args], [pathname],
    ...) the document holds nothing. *)
Theorem format_drops_default_names (now : pyval) (record : LogRecord)
    (doc : Document) (k : string) :
  format now record = Ok doc →
  k ∈ DEFAULT_PROPERTIES →
  k ≠ "thread" → k ≠ "threadName" → k ≠ "module" →
  doc !! k = None.
Proof.
  intros (std & dec & Hstd & Hdec & Hdoc)%format_lookup Hk H1 H2 H3.
  rewrite Hdoc, decide_False by (rewrite contextual_extra_spec; tauto).
  assert (k ∉ standard_keys) as Hnstd.
  { intros Hs.
    assert (k ∈ DEFAULT_PROPERTIES ∩ standard_keys) as Hin
      by (by apply elem_of_intersection).
    assert (DEFAULT_PROPERTIES ∩ standard_keys
            = list_to_set ["thread"; "threadName"; "module"]) as Heq.
    { apply (bool_decide_eq_true_1 _). by vm_compute. }
    rewrite Heq in Hin. apply elem_of_list_to_set in Hin.
    repeat (apply elem_of_cons in Hin as [-> | Hin]; [done |]).
    by apply elem_of_nil in Hin. }
  rewrite (decorate_exception_lookup record std dec) by
    (done || (intros ->; by apply exception_not_default)).
  apply eq_None_not_Some.
  by rewrite (standard_document_lookup_is_Some now record).
Qed.

(** X20.  [format] returns a document exactly when
    [record.getMessage()] returns and either [exc_info] is [None], or
    [exc_info[1]] can be read, [str] of it returns and [formatException]
    returns. *)
Theorem format_returns_iff (now : pyval) (record : LogRecord) :
  (∃ doc, format now record = Ok doc)
  ↔ (∃ message, getMessage record = Ok message)
    ∧ (exc_info record = PyNone
       ∨ ∃ value message stack,
           subscript (exc_info record) 1 = Ok value
           ∧ str value = Ok message
           ∧ formatException (exc_info record) = Ok stack).
Proof.
  split.
  - intros [doc (std & dec & Hstd & Hdec & _)%format_Ok].
    apply standard_document_Ok in Hstd as (message & Hmsg & _).
    split; [eauto |].
    apply decorate_exception_Ok in Hdec
      as [[Hnone _] | (_ & v & m & st & Hv & Hm & Hst & _)];
      [by left | right; eauto 10].
  - intros [[message Hmsg] Hexc].
    unfold format, standard_document, result_bind. rewrite Hmsg.
    rewrite decorate_exception_unfold.
    destruct Hexc as [-> | (v & m & st & Hv & Hm & Hst)]; [by eauto |].
    destruct (is_none (exc_info record)); [by eauto |].
    unfold result_bind. rewrite Hv, Hm, Hst. by eauto.
Qed.

(** X21.  On a record whose [exc_info] is a boolean or an integer (as
    after a call with [exc_info=False]) and whose message can be built,
    [format] raises the [TypeError] of the subscript; on one whose
    [exc_info] is a tuple of fewer than two elements, its [IndexError]. *)
Theorem format_raises_on_bad_exc_info (now : pyval) (record : LogRecord)
    (message : string) :
  getMessage record = Ok message →
  (∀ b, exc_info record = PyBool b →
        format now record
        = Err (TypeError "'bool' object is not subscriptable"))
  ∧ (∀ n, exc_info record = PyInt n →
          format now record
          = Err (TypeError "'int' object is not subscriptable"))
  ∧ (∀ items, exc_info record = PyTuple items → (length items < 2)%nat →
              format now record
              = Err (IndexError "tuple index out of range")).
Proof.
  intros Hmsg.
  assert (∀ e, is_none (exc_info record) = false →
               subscript (exc_info record) 1 = Err e →
               format now record = Err e) as Hraise.
  { intros e Hn He. unfold format, standard_document, result_bind.
    rewrite Hmsg, decorate_exception_unfold, Hn.
    unfold result_bind. by rewrite He. }
  split; [| split].
  - intros b Hb. apply Hraise; by rewrite Hb.
  - intros n Hn. apply Hraise; by rewrite Hn.
  - intros items Hi Hlen. apply Hraise; rewrite Hi; [done |].
    simpl. rewrite lookup_ge_None_2; [done | lia].
Qed.

End FormatMore.

(** ** The unbuffered handler *)

Section UnbufferedMore.
Context `{Logging} {C : Type} `{Collection C}.

Lemma attempted_app (evs1 evs2 : list Event) :
  attempted (evs1 ++ evs2) = attempted evs1 ++ attempted evs2.
Proof. unfold attempted, attempts. by rewrite omap_app, fmap_app. Qed.

Lemma attempted_cons doc err (evs : list Event) :
  attempted (InsertOne doc err :: evs) = doc :: attempted evs.
Proof. reflexivity. Qed.

Lemma attempted_handle_error record (evs : list Event) :
  attempted (HandleError record :: evs) = attempted evs.
Proof. reflexivity. Qed.

(** X5.  Any number of [emit] calls on the unbuffered handler return.
    With a bound collection each record for which [format] returns a
    document is handed to [insert_one] once, in order, as that document,
    whether earlier calls failed or not; [handleError] is called once per
    failed write and once per record on which [format] raises, unless
    [fail_silently] is set, and then never.  With an unbound collection
    nothing happens at all. *)
Theorem handler_emit_all_spec (recs : list (pyval * LogRecord))
    (h : MongoHandler.t C) :
  ∃ h' evs,
    handler_emit_all recs h = (h', evs, Returned)
    ∧ attempted evs
      = (match MongoHandler.collection h with
         | Some _ => formatted recs
         | None => []
         end)
    ∧ length (List.filter is_handle_error evs)
      = (if MongoHandler.fail_silently h then 0%nat
         else match MongoHandler.collection h with
              | Some _ =>
                  (length (List.filter is_failed_insert_one evs)
                   + length (List.filter raises_in_format recs))%nat
              | None => 0%nat
              end)
    ∧ MongoHandler.fail_silently h' = MongoHandler.fail_silently h
    ∧ (MongoHandler.collection h = None → h' = h ∧ evs = []).
Proof.
  revert h. induction recs as [| [now record] recs IH]; intros h.
  - exists h, []. simpl. repeat split; try done.
    + by destruct (MongoHandler.collection h).
    + by destruct (MongoHandler.fail_silently h),
                  (MongoHandler.collection h).
  - cbn [handler_emit_all]. unfold MongoHandler.emit.
    destruct (MongoHandler.collection h) as [coll |] eqn:Hcoll.
    + destruct (MongoFormatter.format now record) as [doc | e0] eqn:Hdoc.
      * assert (raises_in_format (now, record) = false) as Hr
          by (unfold raises_in_format; simpl; by rewrite Hdoc).
        rewrite (formatted_cons_Ok now record recs doc Hdoc).
        cbn [List.filter]. rewrite Hr.
        destruct (insert_one doc coll) as [coll1 err].
        destruct (IH (MongoHandler.set_collection h coll1))
          as (h' & evs & Hrun & Hatt & Hrep & Hfs & _).
        simpl in Hatt, Hrep, Hfs.
        destruct err as [e |];
          [destruct (MongoHandler.fail_silently h) eqn:Hsilent |];
          simpl; rewrite Hrun; do 2 eexists; (split; [done |]);
          rewrite ?attempted_cons, ?attempted_handle_error, Hatt;
          simpl; rewrite Hrep;
          repeat split; try done; by intros [=].
      * assert (raises_in_format (now, record) = true) as Hr
          by (unfold raises_in_format; simpl; by rewrite Hdoc).
        assert (formatted ((now, record) :: recs) = formatted recs) as ->
          by (unfold formatted; simpl; by rewrite Hdoc).
        cbn [List.filter]. rewrite Hr.
        destruct (IH h) as (h' & evs & Hrun & Hatt & Hrep & Hfs & _).
        rewrite Hcoll in Hatt, Hrep.
        destruct (MongoHandler.fail_silently h) eqn:Hsilent;
          simpl; rewrite Hrun; do 2 eexists; (split; [done |]);
          rewrite ?attempted_handle_error, Hatt; simpl; rewrite ?Hrep;
          repeat split; try done; by intros [=].
    + destruct (IH h) as (h' & evs & Hrun & Hatt & Hrep & Hfs & Hnone).
      destruct (Hnone Hcoll) as [-> ->]. rewrite Hrun.
      exists h, []. rewrite Hcoll in *. by repeat split.
Qed.

End UnbufferedMore.

(** ** The buffered handler *)

Section BufferedMore.
Context `{Logging} {C : Type} `{Collection C}.
Import BufferedMongoHandler.

Lemma same_configuration_refl (h : t C) : same_configuration h h.
Proof. by repeat split. Qed.

Lemma same_configuration_trans (h1 h2 h3 : t C) :
  same_configuration h1 h2 → same_configuration h2 h3 →
  same_configuration h1 h3.
Proof.
  intros (A1 & A2 & A3 & A4 & A5 & A6 & A7) (B1 & B2 & B3 & B4 & B5 & B6 & B7).
  repeat split; try congruence; tauto.
Qed.

Lemma flush_to_mongo_configuration (h : t C) :
  same_configuration h (flush_to_mongo h).1.1.
Proof.
  unfold flush_to_mongo.
  destruct (collection h) as [coll |] eqn:Hcoll;
    [| apply same_configuration_refl].
  case_bool_decide; [| apply same_configuration_refl].
  assert (∀ c, same_configuration h (empty_buffer (set_collection h c)))
    as Hempty.
  { intros c. unfold same_configuration, collection. simpl.
    unfold collection in Hcoll. rewrite Hcoll. repeat split; eauto. }
  assert (∀ c, same_configuration h (set_collection h c)) as Hset.
  { intros c. unfold same_configuration, collection. simpl.
    unfold collection in Hcoll. rewrite Hcoll. repeat split; eauto. }
  destruct (insert_many (buffer h) coll) as [coll1 [e1 |]]; [| apply Hempty].
  destruct (insert_one_by_one e1 (buffer h) coll1) as [[c evs] [| e]]; simpl;
    [apply Hempty | apply Hset].
Qed.

Lemma emit_configuration now record (h : t C) :
  same_configuration h (emit now record h).1.1.
Proof.
  destruct (MongoFormatter.format now record) as [doc | e] eqn:Hdoc.
  - rewrite (emit_Ok now record h doc Hdoc). cbv zeta.
    set (h1 := set_buffer _ _).
    assert (same_configuration h h1) as H1 by (by repeat split).
    destruct (_ || _); [| done].
    eapply same_configuration_trans; [exact H1 |].
    apply flush_to_mongo_configuration.
  - rewrite (emit_Err now record h e Hdoc). by repeat split.
Qed.

Lemma emit_all_configuration (recs : list (pyval * LogRecord)) (h : t C) :
  same_configuration h (emit_all recs h).1.1.
Proof.
  revert h. induction recs as [| [now record] recs IH]; intros h; simpl.
  - apply same_configuration_refl.
  - pose proof (emit_configuration now record h) as H1.
    destruct (emit now record h) as [[h1 evs1] [| e]]; [| done].
    pose proof (IH h1) as H2.
    destruct (emit_all recs h1) as [[h2 evs2] o2].
    by eapply same_configuration_trans.
Qed.

(** The stop event is set by [destroy] alone. *)
Lemma flush_to_mongo_timer_stopped (h : t C) :
  timer_stopped (flush_to_mongo h).1.1 = timer_stopped h.
Proof.
  unfold flush_to_mongo. destruct (collection h) as [coll |]; [| done].
  case_bool_decide; [| done].
  destruct (insert_many (buffer h) coll) as [coll1 [e1 |]]; [| done].
  by destruct (insert_one_by_one e1 (buffer h) coll1) as [[c evs] [| e]].
Qed.

Lemma insert_one_by_one_no_close e1 (msgs : list Document) (coll : C) :
  List.filter is_close_event (insert_one_by_one e1 msgs coll).1.2 = [].
Proof.
  revert coll. induction msgs as [| msg rest IH]; intros coll; simpl; [done |].
  destruct (insert_one msg coll) as [coll1 [e2 |]].
  - destruct (msg !! "levelname") as [lv |]; [| done].
    specialize (IH coll1).
    destruct (insert_one_by_one e1 rest coll1) as [[c evs] o].
    simpl in *. rewrite List.filter_app, IH.
    by destruct (py_ne_str lv "DEBUG").
  - specialize (IH coll1).
    by destruct (insert_one_by_one e1 rest coll1) as [[c evs] o].
Qed.

Lemma flush_to_mongo_no_close (h : t C) :
  List.filter is_close_event (flush_to_mongo h).1.2 = [].
Proof.
  unfold flush_to_mongo. destruct (collection h) as [coll |]; [| done].
  case_bool_decide; [| done].
  destruct (insert_many (buffer h) coll) as [coll1 [e1 |]]; [| done].
  pose proof (insert_one_by_one_no_close e1 (buffer h) coll1) as Hno.
  by destruct (insert_one_by_one e1 (buffer h) coll1) as [[c evs] [| e]].
Qed.

(** A flush of an empty buffer only counts as a call. *)
Lemma flush_to_mongo_empty (h : t C) :
  buffer h = [] → flush_to_mongo h = (h, [FlushCalled], Returned).
Proof.
  intros Hb. unfold flush_to_mongo. rewrite Hb.
  by destruct (collection h).
Qed.

Lemma flush_to_mongo_bulk_ok (h : t C) (coll coll' : C) :
  collection h = Some coll →
  buffer h ≠ [] →
  insert_many (buffer h) coll = (coll', None) →
  flush_to_mongo h
  = (empty_buffer (set_collection h coll'),
     [FlushCalled; InsertMany (buffer h) None], Returned).
Proof.
  intros Hcoll Hne Hbulk. unfold flush_to_mongo. rewrite Hcoll.
  rewrite bool_decide_eq_true_2
    by (destruct (buffer h); [done | simpl; lia]).
  by rewrite Hbulk.
Qed.

(** X6.  No run of [emit] calls, no flush, no [destroy] and no run of
    the timer loop changes the handler's configuration: capacity,
    early-flush level, timer, [fail_silently], connection,
    authentication, and whether a collection is bound. *)
Theorem configuration_is_kept (recs : list (pyval * LogRecord))
    (intervals : nat) (h : t C) :
  same_configuration h (emit_all recs h).1.1
  ∧ same_configuration h (flush_to_mongo h).1.1
  ∧ same_configuration h (destroy h).1.1
  ∧ same_configuration h (loop intervals h).1.1.
Proof.
  split; [apply emit_all_configuration |].
  split; [apply flush_to_mongo_configuration |]. split.
  - unfold destroy.
    set (h0 := if _timer_stopper h then set_timer_stopped h else h).
    assert ((if _timer_stopper h then (set_timer_stopped h, [TimerStop])
             else (h, []))
            = (h0, if _timer_stopper h then [TimerStop] else [])) as ->
      by (subst h0; by destruct (_timer_stopper h)).
    assert (same_configuration h h0) as H0'
      by (subst h0; destruct (_timer_stopper h); by repeat split).
    pose proof (flush_to_mongo_configuration h0) as H1.
    destruct (flush_to_mongo h0) as [[h1 evs1] [| e]];
      by eapply same_configuration_trans.
  - revert h. induction intervals as [| n IH]; intros h; simpl.
    + destruct (timer_stopped h); apply same_configuration_refl.
    + destruct (timer_stopped h); [apply same_configuration_refl |].
      pose proof (flush_to_mongo_configuration h) as H1.
      destruct (flush_to_mongo h) as [[h1 evs1] [| e]]; [| done].
      pose proof (IH h1) as H2.
      destruct (loop n h1) as [[h2 evs2] st].
      by eapply same_configuration_trans.
Qed.

(** X7.  A flush that returned leaves nothing for the next one: called
    again at once, [flush_to_mongo] reaches no driver call and returns
    the handler as it is. *)
Theorem flush_to_mongo_twice (h h1 : t C) evs :
  flush_to_mongo h = (h1, evs, Returned) →
  flush_to_mongo h1 = (h1, [FlushCalled], Returned).
Proof.
  unfold flush_to_mongo at 1.
  destruct (collection h) as [coll |] eqn:Hcoll.
  - case_bool_decide as Hlen.
    + destruct (insert_many (buffer h) coll) as [coll1 [e1 |]].
      * destruct (insert_one_by_one e1 (buffer h) coll1) as [[c evs'] [| e]];
          [| done].
        intros [= <- _]. by apply flush_to_mongo_empty.
      * intros [= <- _]. by apply flush_to_mongo_empty.
    + intros [= <- _]. apply flush_to_mongo_empty.
      destruct (buffer h); [done | simpl in Hlen; lia].
  - intros [= <- _]. unfold flush_to_mongo. by rewrite Hcoll.
Qed.

Lemma emit_below_capacity now record (h h' : t C) evs o :
  is_Some (collection h) →
  Z.of_nat (length (buffer h)) < buffer_size h →
  emit now record h = (h', evs, o) →
  ¬ Exists is_failed_insert_one evs →
  is_Some (collection h')
  ∧ Z.of_nat (length (buffer h')) < buffer_size h'
  ∧ ((∃ doc, MongoFormatter.format now record = Ok doc) → o = Returned).
Proof.
  intros Hbound Hlen Hemit Hno.
  pose proof (emit_configuration now record h) as Hcfg.
  rewrite Hemit in Hcfg. simpl in Hcfg.
  destruct Hcfg as (Hsz & _ & _ & _ & _ & _ & Hc).
  revert Hemit.
  destruct (MongoFormatter.format now record) as [doc | e] eqn:Hdoc.
  2:{ rewrite (emit_Err now record h e Hdoc). intros [= <- <- <-].
      split; [done |]. split; [done |]. by intros [? [=]]. }
  rewrite (emit_Ok now record h doc Hdoc). cbv zeta.
  set (h1 := set_buffer _ _).
  assert (is_Some (collection h1)) as Hbound1 by done.
  assert (flush_to_mongo h1 = (h', evs, o) →
          is_Some (collection h')
          ∧ Z.of_nat (length (buffer h')) < buffer_size h'
          ∧ o = Returned) as Hflushed.
  { intros Hflush.
    destruct (flush_to_mongo_bound_ok h1 h' evs o Hbound1 Hflush Hno)
      as [-> Hb].
    rewrite Hb, Hsz. simpl. split; [tauto |]. split; [lia | done]. }
  assert (∀ P : Prop,
            is_Some (collection h')
            ∧ Z.of_nat (length (buffer h')) < buffer_size h' ∧ o = Returned →
            is_Some (collection h')
            ∧ Z.of_nat (length (buffer h')) < buffer_size h'
            ∧ (P → o = Returned)) as Hweak by tauto.
  destruct (bool_decide (buffer_size h1 ≤ Z.of_nat (length (buffer h1))))
    eqn:Hfull.
  { rewrite orb_true_l. intros Hflush. by apply Hweak, Hflushed. }
  rewrite orb_false_l. apply bool_decide_eq_false_1 in Hfull.
  destruct (bool_decide (buffer_early_flush_level h1 ≤ levelno record)).
  { intros Hflush. by apply Hweak, Hflushed. }
  intros [= <- <- <-]. split; [done |]. split; [| done].
  change (buffer_size h1) with (buffer_size h) in *. lia.
Qed.

(** X8.  On a handler with a bound collection whose buffer is shorter
    than the capacity, any run of [emit] calls in which no single write
    fails ends with the buffer again shorter than the capacity: the
    buffer never holds [buffer_size] documents between two calls.  The
    run returns when [format] returns a document for each record. *)
Theorem buffer_stays_below_capacity (recs : list (pyval * LogRecord))
    (h h' : t C) evs o :
  is_Some (collection h) →
  Z.of_nat (length (buffer h)) < buffer_size h →
  emit_all recs h = (h', evs, o) →
  ¬ Exists is_failed_insert_one evs →
  Z.of_nat (length (buffer h')) < buffer_size h'
  ∧ (formattable recs → o = Returned).
Proof.
  revert h evs. induction recs as [| [now record] recs IH];
    intros h evs Hbound Hlen; simpl.
  - by intros [= <- <- <-] _.
  - destruct (emit now record h) as [[h1 evs1] o1] eqn:Hemit.
    destruct o1 as [| e].
    + destruct (emit_all recs h1) as [[h2 evs2] o2] eqn:Hrun.
      intros [= <- <- <-] Hno.
      destruct (emit_below_capacity now record h h1 evs1 Returned)
        as (Hb1 & Hl1 & _); try done.
      { intros Hex. apply Hno. apply Exists_app. by left. }
      destruct (IH h1 evs2 Hb1 Hl1 Hrun) as [Hl2 Ho2].
      { intros Hex. apply Hno. apply Exists_app. by right. }
      split; [done |]. intros [_ Hf]%Forall_cons. by apply Ho2.
    + intros [= <- <- <-] Hno.
      destruct (emit_below_capacity now record h h1 evs1 (Raised e))
        as (_ & Hl1 & Ho1); try done.
      split; [done |]. intros [Hf _]%Forall_cons.
      by specialize (Ho1 Hf).
Qed.


Lemma attempts_insert_one doc err (evs : list Event) :
  attempts (InsertOne doc err :: evs) = (doc, err) :: attempts evs.
Proof. reflexivity. Qed.

Lemma attempts_print e1 e2 m (evs : list Event) :
  attempts (Print e1 e2 m :: evs) = attempts evs.
Proof. reflexivity. Qed.

Lemma reports_due_cons e1 doc err (tries : list (Document * option exn)) :
  reports_due e1 ((doc, err) :: tries)
  = (match err with
     | Some e2 => if reportable doc then [Print e1 e2 doc] else []
     | None => []
     end) ++ reports_due e1 tries.
Proof. reflexivity. Qed.

(** The fallback loop on documents that all have a ['levelname'] key. *)
Lemma insert_one_by_one_leveled e1 (msgs : list Document) (coll : C) :
  Forall (λ d : Document, is_Some (d !! "levelname")) msgs →
  ∃ coll' evs,
    insert_one_by_one e1 msgs coll = (coll', evs, Returned)
    ∧ attempted evs = msgs
    ∧ List.filter is_print evs = reports_due e1 (attempts evs).
Proof.
  intros Hall. revert coll.
  induction Hall as [| msg rest [lv Hlv] Hrest IH]; intros coll; simpl.
  - by exists coll, [].
  - destruct (insert_one msg coll) as [coll1 [e2 |]].
    + rewrite Hlv.
      destruct (IH coll1) as (coll2 & evs & -> & Hatt & Hrep).
      do 2 eexists. split; [done |].
      unfold attempted in *.
      destruct (py_ne_str lv "DEBUG") eqn:Hne; simpl app;
        rewrite attempts_insert_one, ?attempts_print, reports_due_cons;
        unfold reportable; rewrite Hlv, Hne, fmap_cons, Hatt;
        cbn [List.filter is_print is_failed_insert_one]; rewrite Hrep;
        done.
    + destruct (IH coll1) as (coll2 & evs & -> & Hatt & Hrep).
      do 2 eexists. split; [done |].
      unfold attempted in *.
      rewrite attempts_insert_one, reports_due_cons, fmap_cons, Hatt.
      cbn [List.filter is_print]. by rewrite Hrep.
Qed.

(** X10.  When every buffered document has a ['levelname'] key (as a
    formatter other than [MongoFormatter] may provide) and the bulk write
    fails, the flush tries every document once, in order; it prints a
    report, carrying the bulk error, the write's error and the document,
    for exactly the failed writes of documents whose ['levelname'] is not
    ['DEBUG']; then it returns with an empty buffer, however many writes
    failed. *)
Theorem flush_fallback_on_leveled_documents (h : t C) (coll coll1 : C)
    (e1 : exn) :
  collection h = Some coll →
  buffer h ≠ [] →
  Forall (λ d : Document, is_Some (d !! "levelname")) (buffer h) →
  insert_many (buffer h) coll = (coll1, Some e1) →
  ∃ h' evs,
    flush_to_mongo h
    = (h', FlushCalled :: InsertMany (buffer h) (Some e1) :: evs, Returned)
    ∧ buffer h' = []
    ∧ attempted evs = buffer h
    ∧ List.filter is_print evs = reports_due e1 (attempts evs).
Proof.
  intros Hcoll Hne Hall Hbulk. unfold flush_to_mongo. rewrite Hcoll.
  rewrite bool_decide_eq_true_2
    by (destruct (buffer h); [done | simpl; lia]).
  rewrite Hbulk.
  destruct (insert_one_by_one_leveled e1 (buffer h) coll1 Hall)
    as (coll2 & evs & -> & Hatt & Hrep).
  by do 2 eexists.
Qed.

(** X11.  [destroy] enters [flush_to_mongo] exactly once.  With a timer
    it first sets the stop event, which stays set however the flush ends.
    When the flush returns, the logout and close calls of [close] come
    last, after every write; when the flush raises, [destroy] raises
    without any logout or close. *)
Theorem destroy_order (h h' : t C) evs o :
  destroy h = (h', evs, o) →
  flush_count evs = 1%nat
  ∧ (_timer_stopper h = true →
     timer_stopped h' = true ∧ head evs = Some TimerStop)
  ∧ match o with
    | Returned =>
        ∃ pre, evs = pre ++ MongoHandler.close (super h)
               ∧ List.filter is_close_event pre = []
    | Raised _ => List.filter is_close_event evs = []
    end.
Proof.
  unfold destroy.
  set (h0 := if _timer_stopper h then set_timer_stopped h else h).
  set (evs0 := if _timer_stopper h then [TimerStop] else []).
  assert ((if _timer_stopper h then (set_timer_stopped h, [TimerStop])
           else (h, [])) = (h0, evs0)) as ->
    by (subst h0 evs0; by destruct (_timer_stopper h)).
  pose proof (flush_count_flush_to_mongo h0) as Hcount.
  pose proof (flush_to_mongo_timer_stopped h0) as Hstop.
  pose proof (flush_to_mongo_no_close h0) as Hnoclose.
  pose proof (flush_to_mongo_configuration h0) as (_ & _ & _ & _ & Hconn & Hauth & _).
  destruct (flush_to_mongo h0) as [[h1 evs1] o1]. simpl in *.
  assert (MongoHandler.close (super h1) = MongoHandler.close (super h))
    as Hclose.
  { unfold MongoHandler.close. rewrite Hconn, Hauth.
    subst h0. by destruct (_timer_stopper h). }
  assert (List.filter is_flush evs0 = [] ∧ List.filter is_close_event evs0 = [])
    as [Hf0 Hc0] by (subst evs0; by destruct (_timer_stopper h)).
  assert (List.filter is_flush (MongoHandler.close (super h1)) = []) as Hfc.
  { unfold MongoHandler.close.
    by destruct (MongoHandler.authenticated (super h1)),
                (MongoHandler.connection (super h1)). }
  unfold flush_count in *.
  destruct o1 as [| e]; intros [= <- <- <-].
  - split; [by rewrite !List.filter_app, Hf0, Hfc, app_nil_r |]. split.
    + intros Hts. rewrite Hstop. subst h0 evs0. by rewrite Hts.
    + exists (evs0 ++ evs1). rewrite Hclose. split; [by rewrite app_assoc |].
      by rewrite List.filter_app, Hc0, Hnoclose.
  - split; [by rewrite !List.filter_app, Hf0 |]. split.
    + intros Hts. rewrite Hstop. subst h0 evs0. by rewrite Hts.
    + by rewrite List.filter_app, Hc0, Hnoclose.
Qed.

(** X12.  After [destroy] on a handler with a timer, the timer loop is
    over: however long it is given, it enters no flush. *)
Theorem loop_after_destroy (intervals : nat) (h h' : t C) evs o :
  _timer_stopper h = true →
  destroy h = (h', evs, o) →
  loop intervals h' = (h', [], Exited).
Proof.
  intros Hts Hd.
  assert (timer_stopped h' = true) as Hst.
  { revert Hd. unfold destroy. rewrite Hts.
    pose proof (flush_to_mongo_timer_stopped (set_timer_stopped h)) as Hstop.
    destruct (flush_to_mongo (set_timer_stopped h)) as [[h1 evs1] [| e]];
      intros [= <- _ _]; exact Hstop. }
  destruct intervals; simpl; by rewrite Hst.
Qed.

(** X13.  The timer loop does not outlive a failed single write: over
    documents made by [format], the first flush in which one fails ends
    the thread with [KeyError], the buffer still full. *)
Theorem loop_dies_on_failed_write (intervals : nat) (h h' : t C) evs st :
  buffer_formatted h →
  loop intervals h = (h', evs, st) →
  Exists is_failed_insert_one evs →
  st = Died (KeyError "levelname") ∧ buffer h' ≠ [].
Proof.
  revert h evs. induction intervals as [| n IH]; intros h evs Hfmt; simpl.
  - destruct (timer_stopped h); by intros [= <- <- <-] ?%Exists_nil.
  - destruct (timer_stopped h); [by intros [= <- <- <-] ?%Exists_nil |].
    destruct (flush_to_mongo h) as [[h1 evs1] o1] eqn:Hflush.
    destruct o1 as [| e].
    + destruct (loop n h1) as [[h2 evs2] st2] eqn:Hloop.
      intros [= <- <- <-] [Hex | Hex]%Exists_app.
      * by destruct (flush_to_mongo_failed_write h h1 evs1 Returned)
          as (? & _).
      * eapply IH; [| exact Hloop | done].
        by eapply buffer_formatted_flush_to_mongo.
    + intros [= <- <- <-] Hex.
      destruct (flush_to_mongo_failed_write h h1 evs1 (Raised e))
        as (Heq & _ & Hne); try done.
      by simplify_eq.
Qed.

Lemma loop_idle (intervals : nat) (h : t C) :
  timer_stopped h = false →
  buffer h = [] →
  loop intervals h = (h, repeat FlushCalled intervals, Waiting).
Proof.
  intros Hst Hb. induction intervals as [| n IH]; simpl; rewrite Hst;
    [done |].
  by rewrite (flush_to_mongo_empty h Hb), IH.
Qed.

(** X14.  On a handler with a running timer, a bound collection and a
    bulk write that goes through, the first elapsed interval writes the
    whole buffer in one bulk write and empties it; the intervals after it
    enter the flush and write nothing. *)
Theorem loop_drains_buffer (intervals : nat) (h : t C) (coll coll' : C) :
  timer_stopped h = false →
  collection h = Some coll →
  buffer h ≠ [] →
  insert_many (buffer h) coll = (coll', None) →
  ∃ h',
    loop (S intervals) h
    = (h',
       [FlushCalled; InsertMany (buffer h) None]
       ++ repeat FlushCalled intervals,
       Waiting)
    ∧ buffer h' = []
    ∧ collection h' = Some coll'.
Proof.
  intros Hst Hcoll Hne Hbulk. simpl. rewrite Hst.
  rewrite (flush_to_mongo_bulk_ok h coll coll') by done.
  rewrite loop_idle by done.
  eexists. by repeat split.
Qed.

(** X22.  [emit] on the buffered handler raises whatever [format] raises
    on the record, having made the record [last_record]: nothing is
    appended to the buffer, [flush_to_mongo] is not entered and no write
    is made, whatever the level of the record and the length of the
    buffer.  A run of [emit] calls ends there. *)
Theorem buffered_emit_raises_with_format (now : pyval) (record : LogRecord)
    (recs : list (pyval * LogRecord)) (h : t C) (e : exn) :
  MongoFormatter.format now record = Err e →
  ∃ h',
    emit now record h = (h', [], Raised e)
    ∧ emit_all ((now, record) :: recs) h = (h', [], Raised e)
    ∧ buffer h' = buffer h
    ∧ last_record h' = Some record
    ∧ super h' = super h.
Proof.
  intros Hfmt. exists (set_last_record h record).
  assert (emit now record h = (set_last_record h record, [], Raised e))
    as Hemit by (by apply emit_Err).
  split; [exact Hemit |]. split; [| done].
  cbn [emit_all]. by rewrite Hemit.
Qed.

End BufferedMore.

(** ** Construction *)

Section ConstructionMore.
Import Construction.

(** The collection a construction binds on client [c]. *)
Lemma bind_collection_spec (s : Settings) (drv : Driver) (c : Client)
    (self self' : Fields) calls o :
  bind_collection s drv c self = (self', calls, o) →
  connection self' = connection self
  ∧ db self' = db self
  ∧ authenticated self' = authenticated self
  ∧ List.filter is_new_client calls = []
  ∧ match o with
    | Built =>
        collection self'
        = Some (if capped s && bool_decide (create_capped drv = None)
                then CappedCollection c (database_name s) (collection_name s)
                                      (capped_max s) (capped_size s)
                else NamedCollection c (database_name s) (collection_name s))
    | Aborted e =>
        collection self' = collection self
        ∧ capped s = true ∧ create_capped drv = Some e ∧ e ≠ OperationFailure
    end.
Proof.
  unfold bind_collection. destruct (capped s); simpl.
  - destruct (create_capped drv) as [[| | what] |]; intros [= <- <- <-];
      by repeat split.
  - intros [= <- <- <-]. by repeat split.
Qed.

Lemma select_database_spec (s : Settings) (drv : Driver) (c : Client)
    (self self' : Fields) calls o :
  select_database s drv c self = (self', calls, o) →
  connection self' = connection self
  ∧ db self' = Some (c, database_name s)
  ∧ List.filter is_new_client calls = []
  ∧ (authenticated self' = true →
     authenticated self = true
     ∨ (is_Some (username s) ∧ is_Some (password s)
        ∧ authenticate drv = inl true))
  ∧ match o with
    | Built =>
        collection self'
        = Some (if capped s && bool_decide (create_capped drv = None)
                then CappedCollection c (database_name s) (collection_name s)
                                      (capped_max s) (capped_size s)
                else NamedCollection c (database_name s) (collection_name s))
    | Aborted e => collection self' = collection self
    end.
Proof.
  unfold select_database.
  destruct (username s) as [u |], (password s) as [p |];
    try (intros (Hc & Hd & Ha & Hn & Ho)%bind_collection_spec;
         simpl in *; repeat split; try done;
         [rewrite Ha; by left | destruct o; [done | by destruct Ho]]).
  destruct (authenticate drv) as [ok | e] eqn:Hauth.
  - destruct (bind_collection s drv c _) as [[self1 calls1] o1] eqn:Hbind.
    apply bind_collection_spec in Hbind as (Hc & Hd & Ha & Hn & Ho).
    intros [= <- <- <-]. simpl in *. repeat split; try done.
    + rewrite Ha. intros ->. right. eauto.
    + destruct o1; [done | by destruct Ho].
  - intros [= <- <- <-]. simpl. repeat split; try done. by left.
Qed.

(** What [__init__] leaves, by the way the connection was obtained. *)
Lemma init_spec (s : Settings) (drv : Driver) (g g' : option Client)
    (self : Fields) calls o :
  __init__ s drv g = (self, g', calls, o) →
  (∃ c, reuse s = true ∧ g = Some c ∧ g' = g
        ∧ connection self = Some c
        ∧ List.filter is_new_client calls = []
        ∧ (o = Built → is_Some (collection self)))
  ∨ ((reuse s = false ∨ g = None)
     ∧ connection self = Some (fresh_client drv)
     ∧ List.filter is_new_client calls
       = [NewClient (host s) (port s) (fresh_client drv)]
     ∧ ((is_primary drv = None ∧ g' = Some (fresh_client drv)
         ∧ (o = Built → is_Some (collection self)))
        ∨ (is_Some (is_primary drv) ∧ g' = g
           ∧ collection self = None ∧ db self = None
           ∧ authenticated self = false
           ∧ calls = [NewClient (host s) (port s) (fresh_client drv);
                      IsPrimary (fresh_client drv)]
           ∧ (o = Built →
              fail_silently s = true
              ∧ is_primary drv = Some ServerSelectionTimeoutError)))).
Proof.
  unfold __init__, _connect.
  assert (∀ c self0 self1 calls1 o1,
            select_database s drv c self0 = (self1, calls1, o1) →
            o1 = Built → is_Some (collection self1)) as Hbound.
  { intros c self0 self1 calls1 o1 (_ & _ & _ & _ & Ho)%select_database_spec ->.
    rewrite Ho. eauto. }
  intros Hinit.
  destruct (if reuse s then g else None) as [c |] eqn:Hhit.
  - destruct (select_database s drv c _) as [[self1 calls1] o1] eqn:Hsel.
    injection Hinit as <- <- <- <-. left. exists c.
    destruct (reuse s); [| done]. subst g.
    pose proof Hsel as (Hc & _ & Hn & _)%select_database_spec.
    repeat split; try done. by eapply Hbound.
  - assert (reuse s = false ∨ g = None) as Hmiss
      by (destruct (reuse s); [by right | by left]).
    right. split; [done |].
    destruct (is_primary drv) as [e |] eqn:Hprim.
    + destruct e as [| | what];
        [destruct (fail_silently s) eqn:Hsilent | |];
        injection Hinit as <- <- <- <-;
        (split; [done |]); (split; [done |]); right;
        (split; [by eauto |]); repeat split; try done;
        by intros [=].
    + destruct (select_database s drv (fresh_client drv) _)
        as [[self1 calls1] o1] eqn:Hsel.
      injection Hinit as <- <- <- <-.
      pose proof Hsel as (Hc & _ & Hn & _)%select_database_spec.
      repeat split; try done.
      * simpl. by rewrite Hn.
      * left. repeat split; try done. by eapply Hbound.
Qed.

(** X15.  A construction that ends normally leaves the collection
    unbound in one case only: no connection was reused, the new client's
    primary check timed out, and [fail_silently] is set.  The handler
    then holds the new client but no database, no authentication, and the
    shared connection is the one from before. *)
Theorem unbound_only_when_silent (s : Settings) (drv : Driver)
    (g g' : option Client) (self : Fields) calls :
  __init__ s drv g = (self, g', calls, Built) →
  collection self = None →
  fail_silently s = true
  ∧ is_primary drv = Some ServerSelectionTimeoutError
  ∧ (reuse s = false ∨ g = None)
  ∧ connection self = Some (fresh_client drv)
  ∧ db self = None
  ∧ authenticated self = false
  ∧ g' = g.
Proof.
  intros Hinit Hnone.
  destruct (init_spec s drv g g' self calls Built Hinit)
    as [(c & _ & _ & _ & _ & _ & Hb)
       | (Hmiss & Hconn & _ & [(_ & _ & Hb) | (_ & Hg & _ & Hdb & Ha & _ & Hs)])].
  - destruct (Hb eq_refl) as [r Hr]. congruence.
  - destruct (Hb eq_refl) as [r Hr]. congruence.
  - destruct (Hs eq_refl). by repeat split.
Qed.

(** X16.  A construction replaces the shared connection only by a client
    it has just made and whose primary check passed; the handler then
    holds that same client.  This is so whatever [reuse] says, and also
    when the construction raises afterwards. *)
Theorem shared_connection_replaced_after_check (s : Settings) (drv : Driver)
    (g g' : option Client) (self : Fields) calls o :
  __init__ s drv g = (self, g', calls, o) →
  g' ≠ g →
  is_primary drv = None
  ∧ g' = Some (fresh_client drv)
  ∧ connection self = g'.
Proof.
  intros Hinit Hne.
  destruct (init_spec s drv g g' self calls o Hinit)
    as [(c & _ & _ & Hg & _)
       | (_ & Hconn & _ & [(Hp & Hg & _) | (_ & Hg & _)])]; try done.
  by rewrite Hg.
Qed.

(** X17.  After a construction that bound a collection, a construction
    with [reuse] set makes no client of its own: it holds the first
    handler's client and leaves the shared connection as it is.  The
    first handler's own [reuse] flag plays no part. *)
Theorem reuse_shares_connection (s1 s2 : Settings) (drv1 drv2 : Driver)
    (g0 g1 g2 : option Client) (self1 self2 : Fields) calls1 calls2 o2 :
  __init__ s1 drv1 g0 = (self1, g1, calls1, Built) →
  is_Some (collection self1) →
  reuse s2 = true →
  __init__ s2 drv2 g1 = (self2, g2, calls2, o2) →
  connection self2 = connection self1
  ∧ g2 = g1
  ∧ List.filter is_new_client calls2 = [].
Proof.
  intros Hinit1 [r Hbound] Hreuse Hinit2.
  assert (g1 = connection self1 ∧ is_Some g1) as [Hg1 [c Hc]].
  { destruct (init_spec s1 drv1 g0 g1 self1 calls1 Built Hinit1)
      as [(c & _ & Hg & -> & Hconn & _)
         | (_ & Hconn & _ & [(_ & -> & _) | (_ & _ & Hnone & _)])].
    - subst g0. rewrite Hconn. eauto.
    - rewrite Hconn. eauto.
    - congruence. }
  destruct (init_spec s2 drv2 g1 g2 self2 calls2 o2 Hinit2)
    as [(c' & _ & Hg & -> & Hconn & Hn & _) | ([Hr | Hr] & _)].
  - rewrite Hconn, <- Hg1. by repeat split.
  - congruence.
  - congruence.
Qed.

(** X18.  The collection a construction binds is on the handler's own
    client, in the configured database and under the configured name.  It
    is the newly created capped collection only when [capped] is set and
    the creation went through; when the creation raises
    [OperationFailure] the construction carries on with the collection of
    that name. *)
Theorem bound_collection_spec (s : Settings) (drv : Driver)
    (g g' : option Client) (self : Fields) calls (r : CollectionRef) :
  __init__ s drv g = (self, g', calls, Built) →
  collection self = Some r →
  ∃ c,
    connection self = Some c
    ∧ db self = Some (c, database_name s)
    ∧ r = (if capped s && bool_decide (create_capped drv = None)
           then CappedCollection c (database_name s) (collection_name s)
                                 (capped_max s) (capped_size s)
           else NamedCollection c (database_name s) (collection_name s)).
Proof.
  unfold __init__, _connect. intros Hinit Hr.
  assert (∀ c self1 calls1 o1,
            select_database s drv c
              (set_connection (mk None None None false) c)
            = (self1, calls1, o1) →
            o1 = Built → collection self1 = Some r →
            ∃ c0, connection self1 = Some c0
                  ∧ db self1 = Some (c0, database_name s)
                  ∧ r = (if capped s && bool_decide (create_capped drv = None)
                         then CappedCollection c0 (database_name s)
                                (collection_name s) (capped_max s)
                                (capped_size s)
                         else NamedCollection c0 (database_name s)
                                (collection_name s))) as Hsel.
  { intros c self1 calls1 o1 (Hc & Hd & _ & _ & Ho)%select_database_spec
      -> Hr1.
    exists c. rewrite Hc, Hd. repeat split; try done. congruence. }
  destruct (if reuse s then g else None) as [c |].
  - destruct (select_database s drv c _) as [[self1 calls1] o1] eqn:Hs.
    injection Hinit as <- _ _ ->. by eapply Hsel.
  - destruct (is_primary drv) as [[| | what] |].
    + destruct (fail_silently s); injection Hinit as <- _ _; done.
    + done.
    + done.
    + destruct (select_database s drv (fresh_client drv) _)
        as [[self1 calls1] o1] eqn:Hs.
      injection Hinit as <- _ _ ->. by eapply Hsel.
Qed.

(** X19.  [close] on a handler whose construction ended normally always
    closes the connection, also when the collection is unbound; it logs
    out first exactly when the handler is authenticated, which needs a
    user name, a password and an [authenticate] call that returned true. *)
Theorem close_after_construction (s : Settings) (drv : Driver)
    (g g' : option Client) (self : Fields) calls :
  __init__ s drv g = (self, g', calls, Built) →
  MongoHandler.close (handler s self)
  = (if authenticated self then [Logout; Close] else [Close])
  ∧ (authenticated self = true →
     is_Some (username s) ∧ is_Some (password s)
     ∧ authenticate drv = inl true)
  ∧ (collection self = None →
     MongoHandler.close (handler s self) = [Close]).
Proof.
  intros Hinit.
  assert (is_Some (connection self)) as [c Hc].
  { destruct (init_spec s drv g g' self calls Built Hinit)
      as [(c & _ & _ & _ & Hconn & _) | (_ & Hconn & _)]; eauto. }
  assert (MongoHandler.close (handler s self)
          = (if authenticated self then [Logout; Close] else [Close])) as Hcl.
  { unfold MongoHandler.close, handler. simpl. rewrite Hc.
    by destruct (authenticated self). }
  split; [exact Hcl |]. split.
  - revert Hinit. unfold __init__, _connect.
    assert (∀ c0 self1 calls1 o1,
              select_database s drv c0
                (set_connection (mk None None None false) c0)
              = (self1, calls1, o1) →
              authenticated self1 = true →
              is_Some (username s) ∧ is_Some (password s)
              ∧ authenticate drv = inl true) as Hsel.
    { intros c0 self1 calls1 o1 (_ & _ & _ & Ha & _)%select_database_spec Ht.
      by destruct (Ha Ht). }
    destruct (if reuse s then g else None) as [c0 |].
    + destruct (select_database s drv c0 _) as [[self1 calls1] o1] eqn:Hs.
      intros [= <- _ _ _]. by eapply Hsel.
    + destruct (is_primary drv) as [[| | what] |].
      * destruct (fail_silently s); intros [= <- _ _]; done.
      * done.
      * done.
      * destruct (select_database s drv (fresh_client drv) _)
          as [[self1 calls1] o1] eqn:Hs.
        intros [= <- _ _ _]. by eapply Hsel.
  - intros Hnone. rewrite Hcl.
    destruct (init_spec s drv g g' self calls Built Hinit)
      as [(c0 & _ & _ & _ & _ & _ & Hb)
         | (_ & _ & _ & [(_ & _ & Hb) | (_ & _ & _ & _ & -> & _)])];
      [| | done]; destruct (Hb eq_refl); congruence.
Qed.

End ConstructionMore.

(** ** Further concrete runs *)

Section MoreRuns.
Import MongoFormatter BufferedMongoHandler.
Existing Instance plain_logging.
Existing Instance fake_collection.

Lemma format_keys_witness :
  format noon error_record = Ok (noon_doc error_record)
  ∧ dom (noon_doc error_record)
    = standard_keys ∪ {["exception"]}
      ∪ contextual_extra (__dict__ error_record).
Proof.
  assert (format noon error_record = Ok (noon_doc error_record)) as Hdoc
    by (by vm_compute).
  split; [exact Hdoc |].
  exact (format_keys noon error_record (noon_doc error_record) Hdoc).
Defined.

Lemma format_tests_are_shortcuts_witness :
  DEFAULT_PROPERTIES ⊆ dom (__dict__ user_extra_record)
  ∧ copy_extras (__dict__ user_extra_record) ∅
    = set_fold (copy_extra (__dict__ user_extra_record)) ∅
               (contextual_extra (__dict__ user_extra_record)).
Proof.
  assert (DEFAULT_PROPERTIES ⊆ dom (__dict__ user_extra_record)) as Hsub
    by apply dict_has_defaults.
  split; [exact Hsub |].
  exact (format_tests_are_shortcuts (__dict__ user_extra_record) ∅ Hsub).
Defined.

(** Without every default name the test on the lengths is no shortcut.
    [pruned_dict] has twenty names, as [DEFAULT_PROPERTIES] has, and
    [user] is in the difference: the test skips the copy that the
    unconditional loop makes. *)
Lemma format_length_test_skips_extra :
  size DEFAULT_PROPERTIES = size (dom pruned_dict)
  ∧ "user" ∈ contextual_extra pruned_dict
  ∧ "stack_info" ∈ DEFAULT_PROPERTIES ∖ dom pruned_dict
  ∧ copy_extras pruned_dict ∅ = ∅
  ∧ set_fold (copy_extra pruned_dict) (∅ : Document)
             (contextual_extra pruned_dict) !! "user"
    = Some (PyStr "alice").
Proof.
  split; [by vm_compute |].
  split; [apply (bool_decide_eq_true_1 _); by vm_compute |].
  split; [apply (bool_decide_eq_true_1 _); by vm_compute |].
  split; by vm_compute.
Qed.

Lemma format_instant_only_in_timestamp_witness :
  format noon (info_record "hello") = Ok (noon_doc (info_record "hello"))
  ∧ ∃ doc2,
      format one_o_clock (info_record "hello") = Ok doc2
      ∧ ∀ k, k ≠ "timestamp" →
             noon_doc (info_record "hello") !! k = doc2 !! k.
Proof.
  assert (format noon (info_record "hello")
          = Ok (noon_doc (info_record "hello"))) as Hdoc by (by vm_compute).
  split; [exact Hdoc |].
  exact (format_instant_only_in_timestamp noon one_o_clock
           (info_record "hello") (noon_doc (info_record "hello")) Hdoc).
Defined.

Lemma format_drops_default_names_witness :
  format noon (info_record "hello") = Ok (noon_doc (info_record "hello"))
  ∧ "levelname" ∈ DEFAULT_PROPERTIES
  ∧ noon_doc (info_record "hello") !! "levelname" = None.
Proof.
  assert (format noon (info_record "hello")
          = Ok (noon_doc (info_record "hello"))) as Hdoc by (by vm_compute).
  assert ("levelname" ∈ DEFAULT_PROPERTIES) as Hin.
  { apply (bool_decide_eq_true_1 _). by vm_compute. }
  split; [exact Hdoc |]. split; [exact Hin |].
  apply (format_drops_default_names noon (info_record "hello")
           (noon_doc (info_record "hello")) "levelname" Hdoc Hin);
    discriminate.
Defined.

Lemma format_raises_on_bad_exc_info_witness :
  getMessage false_exc_record = Ok "hello"
  ∧ exc_info false_exc_record = PyBool false
  ∧ format noon false_exc_record = Err bool_not_subscriptable.
Proof.
  assert (getMessage false_exc_record = Ok "hello") as Hmsg by reflexivity.
  split; [exact Hmsg |]. split; [reflexivity |].
  destruct (format_raises_on_bad_exc_info noon false_exc_record "hello" Hmsg)
    as (Hbool & _).
  exact (Hbool false eq_refl).
Defined.

(** Two records through the unbuffered handler, the first logged with
    [exc_info=False]: [format] raises on it, [handleError] is called and
    no write is made for it; the second is written. *)
Lemma handler_emit_all_false_exc_info :
  (handler_emit_all [(noon, false_exc_record); (noon, info_record "b")]
                    (BufferedMongoHandler.super idle_handler)).1.2
  = [HandleError false_exc_record; InsertOne (info_doc "b") None].
Proof. by vm_compute. Qed.

Lemma flush_to_mongo_twice_witness :
  (flush_to_mongo ready_handler).2 = Returned
  ∧ flush_to_mongo (flush_to_mongo ready_handler).1.1
    = ((flush_to_mongo ready_handler).1.1, [FlushCalled], Returned).
Proof.
  split; [by vm_compute |].
  apply (flush_to_mongo_twice ready_handler
           (flush_to_mongo ready_handler).1.1
           (flush_to_mongo ready_handler).1.2).
  by vm_compute.
Defined.

Lemma buffer_stays_below_capacity_witness :
  Z.of_nat
    (length (buffer (emit_all [(noon, info_record "a");
                               (noon, info_record "b");
                               (noon, info_record "c")]
                              small_handler).1.1))
  < buffer_size (emit_all [(noon, info_record "a");
                           (noon, info_record "b");
                           (noon, info_record "c")] small_handler).1.1
  ∧ (emit_all [(noon, info_record "a"); (noon, info_record "b");
               (noon, info_record "c")] small_handler).2 = Returned.
Proof.
  destruct (buffer_stays_below_capacity
              [(noon, info_record "a"); (noon, info_record "b");
               (noon, info_record "c")] small_handler
              (emit_all [(noon, info_record "a"); (noon, info_record "b");
                         (noon, info_record "c")] small_handler).1.1
              (emit_all [(noon, info_record "a"); (noon, info_record "b");
                         (noon, info_record "c")] small_handler).1.2
              (emit_all [(noon, info_record "a"); (noon, info_record "b");
                         (noon, info_record "c")] small_handler).2)
    as [Hlen Hret].
  - by exists up.
  - by vm_compute.
  - by vm_compute.
  - vm_compute.
    intros [Hev | [Hev | Hev%Exists_nil]%Exists_cons]%Exists_cons; done.
  - split; [exact Hlen |]. apply Hret.
    repeat (apply List.Forall_cons; [by eexists |]). apply List.Forall_nil.
Defined.

Lemma buffered_emit_raises_with_format_witness :
  format noon false_exc_record = Err bool_not_subscriptable
  ∧ ∃ h',
      emit noon false_exc_record small_handler
      = (h', [], Raised bool_not_subscriptable)
      ∧ emit_all ((noon, false_exc_record) :: [(noon, info_record "b")])
                 small_handler
        = (h', [], Raised bool_not_subscriptable)
      ∧ buffer h' = buffer small_handler
      ∧ last_record h' = Some false_exc_record
      ∧ super h' = super small_handler.
Proof.
  assert (format noon false_exc_record = Err bool_not_subscriptable)
    as Hfmt by reflexivity.
  split; [exact Hfmt |].
  exact (buffered_emit_raises_with_format noon false_exc_record
           [(noon, info_record "b")] small_handler bool_not_subscriptable
           Hfmt).
Defined.


Lemma flush_fallback_on_leveled_documents_witness :
  ∃ h' evs,
    flush_to_mongo leveled_handler
    = (h', FlushCalled
           :: InsertMany (buffer leveled_handler) (Some bulk_refused) :: evs,
       Returned)
    ∧ buffer h' = []
    ∧ attempted evs = buffer leveled_handler
    ∧ List.filter is_print evs = reports_due bulk_refused (attempts evs).
Proof.
  apply (flush_fallback_on_leveled_documents leveled_handler down down
           bulk_refused).
  - reflexivity.
  - discriminate.
  - repeat (apply List.Forall_cons; [by eexists |]). apply List.Forall_nil.
  - reflexivity.
Defined.

(** The run behind the witness above: both single writes fail, the
    ['INFO'] document is reported and the ['DEBUG'] one is not. *)
Lemma flush_leveled_handler_events :
  (flush_to_mongo leveled_handler).1.2
  = [FlushCalled;
     InsertMany [leveled_doc "INFO" "a"; leveled_doc "DEBUG" "b"]
                (Some bulk_refused);
     InsertOne (leveled_doc "INFO" "a") (Some single_refused);
     Print bulk_refused single_refused (leveled_doc "INFO" "a");
     InsertOne (leveled_doc "DEBUG" "b") (Some single_refused)].
Proof. by vm_compute. Qed.

Lemma destroy_order_witness :
  flush_count (destroy ready_handler).1.2 = 1%nat
  ∧ timer_stopped (destroy ready_handler).1.1 = true
  ∧ head (destroy ready_handler).1.2 = Some TimerStop
  ∧ (destroy ready_handler).2 = Returned
  ∧ ∃ pre, (destroy ready_handler).1.2
           = pre ++ MongoHandler.close (super ready_handler)
           ∧ List.filter is_close_event pre = [].
Proof.
  destruct (destroy_order ready_handler (destroy ready_handler).1.1
              (destroy ready_handler).1.2 Returned)
    as (Hcount & Htimer & Hclose).
  - by vm_compute.
  - destruct (Htimer eq_refl) as [Hstop Hhead].
    split; [exact Hcount |]. split; [exact Hstop |].
    split; [exact Hhead |]. split; [by vm_compute | exact Hclose].
Defined.

Lemma loop_after_destroy_witness :
  loop 5 (destroy ready_handler).1.1
  = ((destroy ready_handler).1.1, [], Exited).
Proof.
  apply (loop_after_destroy 5 ready_handler (destroy ready_handler).1.1
           (destroy ready_handler).1.2 (destroy ready_handler).2).
  - reflexivity.
  - by vm_compute.
Defined.

Lemma loop_dies_on_failed_write_witness :
  (loop 3 down_handler).2 = Died (KeyError "levelname")
  ∧ buffer (loop 3 down_handler).1.1 ≠ []
  ∧ flush_count (loop 3 down_handler).1.2 = 1%nat.
Proof.
  destruct (loop_dies_on_failed_write 3 down_handler
              (loop 3 down_handler).1.1 (loop 3 down_handler).1.2
              (loop 3 down_handler).2) as [Hst Hbuf].
  - exact down_handler_formatted.
  - by vm_compute.
  - do 2 apply Exists_cons_tl. apply Exists_cons_hd. exact I.
  - split; [exact Hst |]. split; [exact Hbuf | by vm_compute].
Defined.

Lemma loop_drains_buffer_witness :
  ∃ h',
    loop 3 ready_handler
    = (h',
       [FlushCalled; InsertMany (buffer ready_handler) None]
       ++ repeat FlushCalled 2,
       Waiting)
    ∧ buffer h' = []
    ∧ collection h' = Some (fake_store up (buffer ready_handler)).
Proof.
  apply (loop_drains_buffer 2 ready_handler up).
  - reflexivity.
  - reflexivity.
  - discriminate.
  - reflexivity.
Defined.

End MoreRuns.

Section ConstructionRuns.
Import Construction.

Lemma unbound_only_when_silent_witness :
  (__init__ (local_settings true false true None None) unreachable None).2
  = Built
  ∧ collection
      (__init__ (local_settings true false true None None) unreachable None)
        .1.1.1 = None
  ∧ connection
      (__init__ (local_settings true false true None None) unreachable None)
        .1.1.1 = Some 1%N
  ∧ (__init__ (local_settings true false true None None) unreachable None)
      .1.1.2 = None.
Proof.
  destruct (unbound_only_when_silent
              (local_settings true false true None None) unreachable None
              (__init__ (local_settings true false true None None)
                        unreachable None).1.1.2
              (__init__ (local_settings true false true None None)
                        unreachable None).1.1.1
              (__init__ (local_settings true false true None None)
                        unreachable None).1.2)
    as (_ & _ & _ & Hconn & _ & _ & Hg).
  - reflexivity.
  - reflexivity.
  - split; [reflexivity |]. split; [reflexivity |].
    split; [exact Hconn | exact Hg].
Defined.

Lemma shared_connection_replaced_after_check_witness :
  is_primary (reachable 5) = None
  ∧ (__init__ (local_settings false false false None None) (reachable 5)
              (Some 3%N)).1.1.2 = Some 5%N
  ∧ connection
      (__init__ (local_settings false false false None None) (reachable 5)
                (Some 3%N)).1.1.1 = Some 5%N.
Proof.
  destruct (shared_connection_replaced_after_check
              (local_settings false false false None None) (reachable 5)
              (Some 3%N) (Some 5%N)
              (__init__ (local_settings false false false None None)
                        (reachable 5) (Some 3%N)).1.1.1
              (__init__ (local_settings false false false None None)
                        (reachable 5) (Some 3%N)).1.2
              (__init__ (local_settings false false false None None)
                        (reachable 5) (Some 3%N)).2)
    as (Hp & _ & Hconn).
  - reflexivity.
  - discriminate.
  - split; [exact Hp |]. split; [reflexivity | exact Hconn].
Defined.

Lemma reuse_shares_connection_witness :
  connection
    (__init__ (local_settings false false true None None) (reachable 6)
              (Some 5%N)).1.1.1
  = connection
      (__init__ (local_settings false false false None None) (reachable 5)
                None).1.1.1
  ∧ (__init__ (local_settings false false true None None) (reachable 6)
              (Some 5%N)).1.1.2 = Some 5%N
  ∧ List.filter is_new_client
      (__init__ (local_settings false false true None None) (reachable 6)
                (Some 5%N)).1.2 = [].
Proof.
  apply (reuse_shares_connection
           (local_settings false false false None None)
           (local_settings false false true None None)
           (reachable 5) (reachable 6) None (Some 5%N)
           (__init__ (local_settings false false true None None)
                     (reachable 6) (Some 5%N)).1.1.2
           (__init__ (local_settings false false false None None)
                     (reachable 5) None).1.1.1
           (__init__ (local_settings false false true None None)
                     (reachable 6) (Some 5%N)).1.1.1
           (__init__ (local_settings false false false None None)
                     (reachable 5) None).1.2
           (__init__ (local_settings false false true None None)
                     (reachable 6) (Some 5%N)).1.2
           (__init__ (local_settings false false true None None)
                     (reachable 6) (Some 5%N)).2).
  - reflexivity.
  - by eexists.
  - reflexivity.
  - reflexivity.
Defined.

Lemma bound_collection_spec_witness :
  ∃ c,
    connection
      (__init__ (local_settings false true true None None) (reachable 5) None)
        .1.1.1 = Some c
    ∧ db (__init__ (local_settings false true true None None) (reachable 5)
                   None).1.1.1 = Some (c, "logs")
    ∧ NamedCollection 5 "logs" "logs" = NamedCollection c "logs" "logs".
Proof.
  exact (bound_collection_spec
           (local_settings false true true None None) (reachable 5) None
           (Some 5%N)
           (__init__ (local_settings false true true None None) (reachable 5)
                     None).1.1.1
           (__init__ (local_settings false true true None None) (reachable 5)
                     None).1.2
           (NamedCollection 5 "logs" "logs") eq_refl eq_refl).
Defined.

Lemma close_after_construction_witness :
  MongoHandler.close
    (handler (local_settings false false true (Some "app") (Some "secret"))
       (__init__ (local_settings false false true (Some "app") (Some "secret"))
                 (reachable 5) None).1.1.1)
  = [Logout; Close].
Proof.
  destruct (close_after_construction
              (local_settings false false true (Some "app") (Some "secret"))
              (reachable 5) None (Some 5%N)
              (__init__ (local_settings false false true (Some "app")
                                        (Some "secret"))
                        (reachable 5) None).1.1.1
              (__init__ (local_settings false false true (Some "app")
                                        (Some "secret"))
                        (reachable 5) None).1.2) as (Hclose & _).
  - reflexivity.
  - exact Hclose.
Defined.

End ConstructionRuns.
